(** * DataCatalogFacade: a shallow embedding of
      google/datacatalog_connectors/commons/datacatalog_facade.py

    The facade wraps the Data Catalog client.  The client is remote and
    stateful: it is taken here as a parameter, a record of operations over
    an abstract service state.  Every facade method becomes a computation
    in a state-and-exception monad whose state holds the service state, the
    Tag objects that callers hand over by reference, the sequence of client
    calls issued so far and the records passed to [logging]. *)

From Stdlib Require Import ZArith String List Bool.
From Stdlib Require Import Floats.PrimFloat.
From stdpp Require Import gmap strings list fin_maps.

Local Open Scope string_scope.
Local Open Scope Z_scope.
Local Open Scope list_scope.

(** ** Messages of the service's schema (google.cloud.datacatalog.types)

    Only the members the facade reads or writes are kept.  A protobuf
    scalar that is not set reads as its default: the empty string, zero,
    [False]. *)

Record Timestamp := { seconds : Z; nanos : Z }.

Definition Timestamp_default : Timestamp := {| seconds := 0; nanos := 0 |}.

Record SystemTimestamps := {
  create_time : Timestamp;
  update_time : Timestamp;
  expire_time : Timestamp
}.

Module Entry.
Record t := {
  name : string;
  user_specified_system : string;
  user_specified_type : string;
  display_name : string;
  description : string;
  linked_resource : string;
  source_system_timestamps : SystemTimestamps
}.
End Entry.

(** [TagField] carries its value in the oneof [kind]: at most one of the five
    members is set, and reading any other member gives that member's
    default. *)
Module TagField.
Inductive kind :=
| unset
| double_value_of (d : float)
| string_value_of (s : string)
| bool_value_of (b : bool)
| timestamp_value_of (ts : Timestamp)
| enum_value_of (enum_display_name : string).

Record t := { display_name : string; value : kind }.

Definition bool_value (f : t) : bool :=
  match value f with bool_value_of b => b | _ => false end.
Definition double_value (f : t) : float :=
  match value f with double_value_of d => d | _ => 0%float end.
Definition string_value (f : t) : string :=
  match value f with string_value_of s => s | _ => "" end.
Definition timestamp_value (f : t) : Timestamp :=
  match value f with timestamp_value_of ts => ts | _ => Timestamp_default end.
Definition enum_value_display_name (f : t) : string :=
  match value f with enum_value_of n => n | _ => "" end.

Definition default : t := {| display_name := ""; value := unset |}.
End TagField.

Module Tag.
Record t := {
  name : string;
  template : string;
  fields : gmap string TagField.t;
  column : string
}.

Definition set_name (n : string) (tag : t) : t :=
  {| name := n; template := template tag;
     fields := fields tag; column := column tag |}.
End Tag.

(** [m[field_id]] on a protobuf map of messages: an absent key reads as the
    default message.  (The map also records that default under the key; see
    [fields_getitem_recorded] for why the model keeps the value only.) *)
Definition fields_getitem (m : gmap string TagField.t) (field_id : string)
  : TagField.t :=
  default TagField.default (m !! field_id).

Module Scope.
Record t := {
  include_org_ids : list string;
  include_project_ids : list string;
  include_gcp_public_datasets : bool
}.
Definition empty : t :=
  {| include_org_ids := []; include_project_ids := [];
     include_gcp_public_datasets := false |}.
Definition append_project_id (p : string) (s : t) : t :=
  {| include_org_ids := include_org_ids s;
     include_project_ids := include_project_ids s ++ [p];
     include_gcp_public_datasets := include_gcp_public_datasets s |}.
End Scope.

Module SearchCatalogResult.
Record t := {
  search_result_subtype : string;
  relative_resource_name : string;
  linked_resource : string
}.
End SearchCatalogResult.

(** ** Exceptions

    The failures of a client call are instances of [Exception]; the facade
    tells apart [exceptions.PermissionDenied] and
    [exceptions.FailedPrecondition] (neither is a subclass of the other, and
    no other class of google.api_core derives from them). *)
Inductive ExceptionClass :=
| PermissionDenied
| FailedPrecondition
| NotFound
| AlreadyExists
| InvalidArgument
| ServiceUnavailable
| OtherException (class_name : string).

Record Exception := { exception_class : ExceptionClass; str : string }.

Inductive Result (A : Type) :=
| Return (a : A)
| Raise (e : Exception).
Arguments Return {A} a.
Arguments Raise {A} e.

(** ** What the outside observes: client calls and log records *)

Inductive Call :=
| CreateEntry (parent entry_id : string) (entry : Entry.t)
| GetEntry (name : string)
| UpdateEntry (entry : Entry.t) (update_mask : option (list string))
| DeleteEntry (name : string)
| ListTags (parent : string)
| CreateTag (parent : string) (tag : Tag.t)
| UpdateTag (tag : Tag.t) (update_mask : option (list string))
| SearchCatalog (scope : Scope.t) (query order_by : string) (page_size : Z).

Inductive Level := DEBUG | INFO | WARNING.

Record LogRecord := { level : Level; message : string }.

(** The client, [datacatalog.DataCatalogClient]: each operation reads and
    changes the service state [W] and either returns or raises.
    [dc_list_tags] and [dc_search_catalog] give the items that iterating
    over the client's answer yields ([list_tags] is documented in the facade
    as returning a list of Tag objects). *)
Record DataCatalogClient (W : Type) := {
  dc_create_entry : string -> string -> Entry.t -> W -> Result Entry.t * W;
  dc_get_entry : string -> W -> Result Entry.t * W;
  dc_update_entry : Entry.t -> option (list string) -> W -> Result Entry.t * W;
  dc_delete_entry : string -> W -> Result unit * W;
  dc_list_tags : string -> W -> Result (list Tag.t) * W;
  dc_create_tag : string -> Tag.t -> W -> Result Tag.t * W;
  dc_update_tag : Tag.t -> option (list string) -> W -> Result Tag.t * W;
  dc_search_catalog :
    Scope.t -> string -> string -> Z -> W
    -> Result (list SearchCatalogResult.t) * W
}.
Arguments dc_create_entry {W}.
Arguments dc_get_entry {W}.
Arguments dc_update_entry {W}.
Arguments dc_delete_entry {W}.
Arguments dc_list_tags {W}.
Arguments dc_create_tag {W}.
Arguments dc_update_tag {W}.
Arguments dc_search_catalog {W}.

(** A Tag handed to [upsert_tags] is a Python object: the method writes to
    it, and the same object may occur twice in the list.  Objects are
    addressed by reference and live in a store. *)
Definition TagRef := nat.

Record State (W : Type) := {
  world : W;
  tag_objects : TagRef -> Tag.t;
  calls : list Call;
  log : list LogRecord
}.
Arguments world {W}.
Arguments tag_objects {W}.
Arguments calls {W}.
Arguments log {W}.

Definition set_world {W} (w : W) (s : State W) : State W :=
  {| world := w; tag_objects := tag_objects s;
     calls := calls s; log := log s |}.
Definition add_call {W} (c : Call) (s : State W) : State W :=
  {| world := world s; tag_objects := tag_objects s;
     calls := calls s ++ [c]; log := log s |}.
Definition add_log {W} (r : LogRecord) (s : State W) : State W :=
  {| world := world s; tag_objects := tag_objects s;
     calls := calls s; log := log s ++ [r] |}.
Definition write_tag {W} (ref : TagRef) (tag : Tag.t) (s : State W) : State W :=
  {| world := world s;
     tag_objects := fun r => if Nat.eqb r ref then tag else tag_objects s r;
     calls := calls s; log := log s |}.

(** ** The monad *)

Definition M (W A : Type) : Type := State W -> Result A * State W.

Definition ret {W A} (a : A) : M W A := fun s => (Return a, s).

Definition bind {W A B} (m : M W A) (k : A -> M W B) : M W B :=
  fun s =>
    match m s with
    | (Return a, s') => k a s'
    | (Raise e, s') => (Raise e, s')
    end.

Definition raise {W A} (e : Exception) : M W A := fun s => (Raise e, s).

(** [try: body except C as e: handler]: [handler e] is [None] when no
    except clause matches the class of [e]. *)
Definition try_except {W A} (body : M W A) (handler : Exception -> option (M W A))
  : M W A :=
  fun s =>
    match body s with
    | (Return a, s') => (Return a, s')
    | (Raise e, s') =>
        match handler e with
        | Some h => h s'
        | None => (Raise e, s')
        end
    end.

#[global] Instance M_ret {W} : MRet (M W) := fun A a => ret a.
#[global] Instance M_bind {W} : MBind (M W) := fun A B k m => bind m k.

(** [logging.info] and the like only add a record; they never raise. *)
Definition logging {W} (f : State W -> State W) : M W unit :=
  fun s => (Return tt, f s).

Definition logging_info {W} (msg : string) : State W -> State W :=
  add_log {| level := INFO; message := msg |}.
Definition logging_warning {W} (msg : string) : State W -> State W :=
  add_log {| level := WARNING; message := msg |}.
Definition logging_debug {W} (msg : string) : State W -> State W :=
  add_log {| level := DEBUG; message := msg |}.

Definition read_tag {W} (ref : TagRef) : M W Tag.t :=
  fun s => (Return (tag_objects s ref), s).

(** [tag.name = value] on the object behind [ref]. *)
Definition assign_tag_name {W} (ref : TagRef) (value : string) : M W unit :=
  fun s => (Return tt, write_tag ref (Tag.set_name value (tag_objects s ref)) s).

(** [' ' * n] *)
Fixpoint spaces (n : nat) : string :=
  match n with
  | O => ""
  | S n' => " " +:+ spaces n'
  end.

(** ['%s' % x] for an optional string: [None] prints as its name. *)
Definition str_of_optional (x : option string) : string :=
  match x with Some v => v | None => "None" end.

(** ** utils.ValuesComparableObject *)

(** Modelled from the spec: [utils.ValuesComparableObject] lives in the
    [utils] module of the commons package, which is imported by the facade
    and is not part of the sources at hand.  The spec describes the
    comparison built on it as a field-by-field equality over the attributes
    that were set: two objects are equal when they carry the same attributes
    with the same values. *)
Module ValuesComparableObject.
Definition new : gmap string string := ∅.
Definition setattr (attr value : string) (o : gmap string string)
  : gmap string string := <[attr := value]> o.
Definition eq (o1 o2 : gmap string string) : bool := bool_decide (o1 = o2).
End ValuesComparableObject.

(** ** Change detection (class methods: no client, no state) *)

Definition entries_are_equal (entry_1 entry_2 : Entry.t) : bool :=
  let object_1 := ValuesComparableObject.new in
  let object_1 := ValuesComparableObject.setattr
    "user_specified_system" (Entry.user_specified_system entry_1) object_1 in
  let object_1 := ValuesComparableObject.setattr
    "user_specified_type" (Entry.user_specified_type entry_1) object_1 in
  let object_1 := ValuesComparableObject.setattr
    "display_name" (Entry.display_name entry_1) object_1 in
  let object_1 := ValuesComparableObject.setattr
    "description" (Entry.description entry_1) object_1 in
  let object_1 := ValuesComparableObject.setattr
    "linked_resource" (Entry.linked_resource entry_1) object_1 in
  let object_2 := ValuesComparableObject.new in
  let object_2 := ValuesComparableObject.setattr
    "user_specified_system" (Entry.user_specified_system entry_2) object_2 in
  let object_2 := ValuesComparableObject.setattr
    "user_specified_type" (Entry.user_specified_type entry_2) object_2 in
  let object_2 := ValuesComparableObject.setattr
    "display_name" (Entry.display_name entry_2) object_2 in
  let object_2 := ValuesComparableObject.setattr
    "description" (Entry.description entry_2) object_2 in
  let object_2 := ValuesComparableObject.setattr
    "linked_resource" (Entry.linked_resource entry_2) object_2 in
  ValuesComparableObject.eq object_1 object_2.

Definition entry_was_updated (current_entry new_entry : Entry.t) : bool :=
  let current_update_time :=
    seconds (update_time (Entry.source_system_timestamps current_entry)) in
  let new_update_time :=
    seconds (update_time (Entry.source_system_timestamps new_entry)) in
  let updated_time_changed :=
    negb (new_update_time =? 0)
    && negb (current_update_time =? new_update_time) in
  updated_time_changed || negb (entries_are_equal current_entry new_entry).

(** ** Tag equality (class method) *)

(** The body of the loop of [__tags_fields_are_equal] for one field id of
    [tag_1]: the conjunction of the five comparisons.  [==] on doubles is
    the IEEE comparison. *)
Definition tag_field_values_are_equal (tag_1_field tag_2_field : TagField.t)
  : bool :=
  let values_are_equal :=
    Bool.eqb (TagField.bool_value tag_1_field)
             (TagField.bool_value tag_2_field) in
  let values_are_equal := values_are_equal
    && PrimFloat.eqb (TagField.double_value tag_1_field)
                     (TagField.double_value tag_2_field) in
  let values_are_equal := values_are_equal
    && String.eqb (TagField.string_value tag_1_field)
                  (TagField.string_value tag_2_field) in
  let values_are_equal := values_are_equal
    && (seconds (TagField.timestamp_value tag_1_field)
        =? seconds (TagField.timestamp_value tag_2_field)) in
  let values_are_equal := values_are_equal
    && String.eqb (TagField.enum_value_display_name tag_1_field)
                  (TagField.enum_value_display_name tag_2_field) in
  values_are_equal.

(** [for field_id in tag_1.fields: ... if not values_are_equal: return False]
    over the field ids in the order the map yields them. *)
Fixpoint tags_fields_are_equal_loop
    (field_ids : list string) (tag_1 tag_2 : Tag.t) : bool :=
  match field_ids with
  | [] => true
  | field_id :: rest =>
      let tag_1_field := fields_getitem (Tag.fields tag_1) field_id in
      let tag_2_field := fields_getitem (Tag.fields tag_2) field_id in
      if negb (tag_field_values_are_equal tag_1_field tag_2_field)
      then false
      else tags_fields_are_equal_loop rest tag_1 tag_2
  end.

Definition tags_fields_are_equal (tag_1 tag_2 : Tag.t) : bool :=
  tags_fields_are_equal_loop (map fst (map_to_list (Tag.fields tag_1)))
                             tag_1 tag_2.

(** ** The facade *)

Section DataCatalogFacade.

Context {W : Type}.

(** [self.__datacatalog] and [self.__project_id], fixed by [__init__]. *)
Variable datacatalog : DataCatalogClient W.
Variable project_id : string.

(** A client call: the request is appended to [calls], the service moves
    to its next state, and the call returns or raises. *)
Definition client_call {A} (c : Call) (op : W -> Result A * W) : M W A :=
  fun s =>
    let (r, w) := op (world s) in
    (r, set_world w (add_call c s)).

Definition log_entry_operation
    (description : string) (entry : option Entry.t)
    (entry_name : option string) : State W -> State W :=
  fun s =>
    let formatted_description := "Entry " +:+ description +:+ ": " in
    let s := logging_info
      (formatted_description +:+
       match entry with
       | Some e => Entry.name e
       | None => str_of_optional entry_name
       end) s in
    match entry with
    | Some e =>
        logging_info
          (spaces (String.length formatted_description) +:+ "^ [" +:+
           Entry.user_specified_type e +:+ "] " +:+ Entry.linked_resource e)
          s
    | None => s
    end.

Definition create_entry (entry_group_name entry_id : string)
    (entry : Entry.t) : M W Entry.t :=
  try_except
    (entry ← client_call (CreateEntry entry_group_name entry_id entry)
               (dc_create_entry datacatalog entry_group_name entry_id entry);
     logging (log_entry_operation "created" (Some entry) None);;
     mret entry)
    (fun e =>
       match exception_class e with
       | PermissionDenied => Some (
           let entry_name := entry_group_name +:+ "/entries/" +:+ entry_id in
           logging (log_entry_operation "was not created" None
                                        (Some entry_name));;
           logging (logging_warning ("Error: " +:+ str e));;
           mret entry)
       | _ => None
       end).

Definition get_entry (name : string) : M W Entry.t :=
  client_call (GetEntry name) (dc_get_entry datacatalog name).

Definition update_entry (entry : Entry.t) : M W Entry.t :=
  entry ← client_call (UpdateEntry entry None)
            (dc_update_entry datacatalog entry None);
  logging (log_entry_operation "updated" (Some entry) None);;
  mret entry.

(** The [try] block of [upsert_entry].  It assigns the local
    [persisted_entry], which the handlers and the final [return] read: the
    block gives, beside its outcome, the value of that local when it is
    left. *)
Definition upsert_entry_try (entry_name : string) (entry : Entry.t)
    (persisted_entry : Entry.t)
  : State W -> Result unit * Entry.t * State W :=
  fun s =>
    match get_entry entry_name s with
    | (Raise e, s) => (Raise e, persisted_entry, s)
    | (Return fetched, s) =>
        let persisted_entry := fetched in
        let s := log_entry_operation "already exists" None
                                     (Some entry_name) s in
        if entry_was_updated persisted_entry entry then
          match update_entry entry s with
          | (Raise e, s) => (Raise e, persisted_entry, s)
          | (Return updated, s) => (Return tt, updated, s)
          end
        else
          let s := log_entry_operation "is up-to-date"
                                       (Some persisted_entry) None s in
          (Return tt, persisted_entry, s)
    end.

Definition upsert_entry (entry_group_name entry_id : string)
    (entry : Entry.t) : M W Entry.t :=
  fun s =>
    let persisted_entry := entry in
    let entry_name := entry_group_name +:+ "/entries/" +:+ entry_id in
    match upsert_entry_try entry_name entry persisted_entry s with
    | (Return _, persisted_entry, s) => (Return persisted_entry, s)
    | (Raise e, persisted_entry, s) =>
        match exception_class e with
        | PermissionDenied =>
            (logging (log_entry_operation "does not exist" None
                                          (Some entry_name));;
             persisted_entry ← create_entry entry_group_name entry_id entry;
             mret persisted_entry) s
        | FailedPrecondition =>
            (logging (logging_warning
                        ("Entry was not updated: " +:+ entry_name));;
             logging (logging_warning ("Error: " +:+ str e));;
             mret persisted_entry) s
        | _ => (Raise e, s)
        end
    end.

Definition delete_entry (name : string) : M W unit :=
  try_except
    (client_call (DeleteEntry name) (dc_delete_entry datacatalog name);;
     logging (log_entry_operation "deleted" None (Some name)))
    (fun e => Some (
       logging (logging_info
         ("An exception ocurred while attempting to delete Entry: "
          +:+ name));;
       logging (logging_debug (str e)))).

Definition create_tag (entry_name : string) (tag : TagRef) : M W Tag.t :=
  t ← read_tag tag;
  client_call (CreateTag entry_name t) (dc_create_tag datacatalog entry_name t).

Definition list_tags (entry_name : string) : M W (list Tag.t) :=
  client_call (ListTags entry_name) (dc_list_tags datacatalog entry_name).

Definition update_tag (tag : TagRef) : M W Tag.t :=
  t ← read_tag tag;
  client_call (UpdateTag t None) (dc_update_tag datacatalog t None).

(** The inner loop of [upsert_tags], over the persisted tags, for the
    input object [tag]; [tag_to_create] and [tag_to_update] are the two
    locals it assigns ([None] or a reference to [tag]). *)
Fixpoint upsert_tags_scan (tag : TagRef) (persisted_tags : list Tag.t)
    (tag_to_create tag_to_update : option TagRef)
  : M W (option TagRef * option TagRef) :=
  match persisted_tags with
  | [] => mret (tag_to_create, tag_to_update)
  | persisted_tag :: rest =>
      t ← read_tag tag;
      if String.eqb (Tag.template t) (Tag.template persisted_tag) then
        let tag_to_create := None in
        assign_tag_name tag (Tag.name persisted_tag);;
        t ← read_tag tag;
        if negb (tags_fields_are_equal t persisted_tag) then
          let tag_to_update := Some tag in
          upsert_tags_scan tag rest tag_to_create tag_to_update
        else
          upsert_tags_scan tag rest tag_to_create tag_to_update
      else
        upsert_tags_scan tag rest tag_to_create tag_to_update
  end.

(** The body of the outer loop of [upsert_tags] for one input tag. *)
Definition upsert_tags_body (entry : Entry.t) (persisted_tags : list Tag.t)
    (tag : TagRef) : M W unit :=
  t ← read_tag tag;
  logging (logging_info
    ("Processing Tag from Template: " +:+ Tag.template t +:+ " ..."));;
  let tag_to_create := Some tag in
  let tag_to_update := None in
  '(tag_to_create, tag_to_update) ←
    upsert_tags_scan tag persisted_tags tag_to_create tag_to_update;
  match tag_to_create, tag_to_update with
  | Some tag_to_create, _ =>
      created_tag ← create_tag (Entry.name entry) tag_to_create;
      logging (logging_info ("Tag created: " +:+ Tag.name created_tag))
  | None, Some tag_to_update =>
      update_tag tag_to_update;;
      t ← read_tag tag_to_update;
      logging (logging_info ("Tag updated: " +:+ Tag.name t))
  | None, None =>
      t ← read_tag tag;
      logging (logging_info ("Tag is up-to-date: " +:+ Tag.name t))
  end.

(** [for x in xs: body x]: an exception leaves the loop. *)
Fixpoint for_each {A} (xs : list A) (body : A -> M W unit) : M W unit :=
  match xs with
  | [] => mret tt
  | x :: rest => body x;; for_each rest body
  end.

Definition upsert_tags (entry : Entry.t) (tags : list TagRef) : M W unit :=
  match tags with
  | [] => mret tt
  | _ =>
      persisted_tags ← list_tags (Entry.name entry);
      for_each tags (upsert_tags_body entry persisted_tags)
  end.

Definition search_catalog (query : string)
  : M W (list SearchCatalogResult.t) :=
  let scope := Scope.empty in
  let scope := Scope.append_project_id project_id scope in
  results ← client_call (SearchCatalog scope query "relevance" 1000)
              (dc_search_catalog datacatalog scope query "relevance" 1000);
  mret results.

Definition search_catalog_relative_resource_name (query : string)
  : M W (list string) :=
  results ← search_catalog query;
  mret (map SearchCatalogResult.relative_resource_name results).

End DataCatalogFacade.

(** ** A scripted client

    The analogue of a mocked client in a unit test: every operation has a
    fixed outcome and the service has no state of its own. *)
Module Mock.
Record script := {
  on_create_entry : Result Entry.t;
  on_get_entry : Result Entry.t;
  on_update_entry : Result Entry.t;
  on_delete_entry : Result unit;
  on_list_tags : Result (list Tag.t);
  on_create_tag : Result Tag.t;
  on_update_tag : Result Tag.t;
  on_search_catalog : Result (list SearchCatalogResult.t)
}.

Definition client (m : script) : DataCatalogClient unit :=
  {| dc_create_entry := fun _ _ _ w => (on_create_entry m, w);
     dc_get_entry := fun _ w => (on_get_entry m, w);
     dc_update_entry := fun _ _ w => (on_update_entry m, w);
     dc_delete_entry := fun _ w => (on_delete_entry m, w);
     dc_list_tags := fun _ w => (on_list_tags m, w);
     dc_create_tag := fun _ _ w => (on_create_tag m, w);
     dc_update_tag := fun _ _ w => (on_update_tag m, w);
     dc_search_catalog := fun _ _ _ _ w => (on_search_catalog m, w) |}.

Definition error (c : ExceptionClass) (text : string) : Exception :=
  {| exception_class := c; str := text |}.

Definition no_timestamps : SystemTimestamps :=
  {| create_time := Timestamp_default; update_time := Timestamp_default;
     expire_time := Timestamp_default |}.

Definition entry (display_name : string) : Entry.t :=
  {| Entry.name := "";
     Entry.user_specified_system := "hive";
     Entry.user_specified_type := "table";
     Entry.display_name := display_name;
     Entry.description := "";
     Entry.linked_resource := "//metastore/db/t";
     Entry.source_system_timestamps := no_timestamps |}.

Definition persisted_entry (display_name : string) : Entry.t :=
  {| Entry.name := "projects/p/locations/l/entryGroups/g/entries/t";
     Entry.user_specified_system := "hive";
     Entry.user_specified_type := "table";
     Entry.display_name := display_name;
     Entry.description := "";
     Entry.linked_resource := "//metastore/db/t";
     Entry.source_system_timestamps := no_timestamps |}.

Definition string_field (s : string) : TagField.t :=
  {| TagField.display_name := ""; TagField.value := TagField.string_value_of s |}.

Definition tag (name template : string) (fields : list (string * TagField.t))
  : Tag.t :=
  {| Tag.name := name; Tag.template := template;
     Tag.fields := list_to_map fields; Tag.column := "" |}.

(** Every scripted outcome is a failure unless overridden. *)
Definition unavailable : Exception := error ServiceUnavailable "503 unavailable".

Definition failing : script :=
  {| on_create_entry := Raise unavailable;
     on_get_entry := Raise unavailable;
     on_update_entry := Raise unavailable;
     on_delete_entry := Raise unavailable;
     on_list_tags := Raise unavailable;
     on_create_tag := Raise unavailable;
     on_update_tag := Raise unavailable;
     on_search_catalog := Raise unavailable |}.

(** A service that answers [get_entry], [update_entry] and [create_entry]
    as given. *)
Definition entries (get update create : Result Entry.t) : script :=
  {| on_create_entry := create;
     on_get_entry := get;
     on_update_entry := update;
     on_delete_entry := on_delete_entry failing;
     on_list_tags := on_list_tags failing;
     on_create_tag := on_create_tag failing;
     on_update_tag := on_update_tag failing;
     on_search_catalog := on_search_catalog failing |}.

(** A service whose entry carries the given tags and that accepts every
    create and update of a tag. *)
Definition tags (persisted_tags : list Tag.t) : script :=
  {| on_create_entry := on_create_entry failing;
     on_get_entry := on_get_entry failing;
     on_update_entry := on_update_entry failing;
     on_delete_entry := on_delete_entry failing;
     on_list_tags := Return persisted_tags;
     on_create_tag := Return (tag "tags/created" "tpl" []);
     on_update_tag := Return (tag "tags/updated" "tpl" []);
     on_search_catalog := on_search_catalog failing |}.

(** A tag attached to a column of the entry. *)
Definition column_tag (name template column : string)
    (fields : list (string * TagField.t)) : Tag.t :=
  {| Tag.name := name; Tag.template := template;
     Tag.fields := list_to_map fields; Tag.column := column |}.

(** The state before the first call; the store holds the given objects at
    references 0, 1, ... and an empty Tag elsewhere. *)
Definition initial (objects : list Tag.t) : State unit :=
  {| world := tt;
     tag_objects := fun r => nth r objects (tag "" "" []);
     calls := [];
     log := [] |}.
End Mock.

(** * Properties *)

(** ** Change detection *)

(** The five members that [__entries_are_equal] copies and compares. *)
Definition compared_fields (entry : Entry.t)
  : string * string * string * string * string :=
  (Entry.user_specified_system entry, Entry.user_specified_type entry,
   Entry.display_name entry, Entry.description entry,
   Entry.linked_resource entry).

Lemma entries_are_equal_spec (entry_1 entry_2 : Entry.t) :
  entries_are_equal entry_1 entry_2 = true
  <-> compared_fields entry_1 = compared_fields entry_2.
Proof.
  unfold entries_are_equal, ValuesComparableObject.eq,
    ValuesComparableObject.setattr, ValuesComparableObject.new, compared_fields.
  rewrite bool_decide_eq_true. split.
  - intros H.
    pose proof (f_equal (.!! "user_specified_system") H) as H1.
    pose proof (f_equal (.!! "user_specified_type") H) as H2.
    pose proof (f_equal (.!! "display_name") H) as H3.
    pose proof (f_equal (.!! "description") H) as H4.
    pose proof (f_equal (.!! "linked_resource") H) as H5.
    clear H. simplify_map_eq. congruence.
  - intros H. injection H as -> -> -> -> ->. reflexivity.
Qed.

Lemma compared_fields_differ (entry_1 entry_2 : Entry.t) :
  compared_fields entry_1 <> compared_fields entry_2
  <-> (Entry.user_specified_system entry_1 <> Entry.user_specified_system entry_2
       \/ Entry.user_specified_type entry_1 <> Entry.user_specified_type entry_2
       \/ Entry.display_name entry_1 <> Entry.display_name entry_2
       \/ Entry.description entry_1 <> Entry.description entry_2
       \/ Entry.linked_resource entry_1 <> Entry.linked_resource entry_2).
Proof.
  unfold compared_fields. split.
  - intros H.
    destruct (decide (Entry.user_specified_system entry_1
                      = Entry.user_specified_system entry_2)) as [E1|]; [|tauto].
    destruct (decide (Entry.user_specified_type entry_1
                      = Entry.user_specified_type entry_2)) as [E2|]; [|tauto].
    destruct (decide (Entry.display_name entry_1
                      = Entry.display_name entry_2)) as [E3|]; [|tauto].
    destruct (decide (Entry.description entry_1
                      = Entry.description entry_2)) as [E4|]; [|tauto].
    destruct (decide (Entry.linked_resource entry_1
                      = Entry.linked_resource entry_2)) as [E5|]; [|tauto].
    exfalso. apply H. congruence.
  - intros H E. injection E as E1 E2 E3 E4 E5. tauto.
Qed.

(** C1.  The change detection of [upsert_entry] answers "changed" exactly
    when (a) the update time of the new entry, in seconds, is not zero and
    differs from that of the persisted entry, or (b) one of the five members
    user_specified_system, user_specified_type, display_name, description,
    linked_resource differs between the persisted and the new entry. *)
Theorem entry_was_updated_iff (current_entry new_entry : Entry.t) :
  entry_was_updated current_entry new_entry = true
  <-> ((seconds (update_time (Entry.source_system_timestamps new_entry)) <> 0
        /\ seconds (update_time (Entry.source_system_timestamps current_entry))
           <> seconds (update_time (Entry.source_system_timestamps new_entry)))
       \/ (Entry.user_specified_system current_entry
             <> Entry.user_specified_system new_entry
           \/ Entry.user_specified_type current_entry
             <> Entry.user_specified_type new_entry
           \/ Entry.display_name current_entry <> Entry.display_name new_entry
           \/ Entry.description current_entry <> Entry.description new_entry
           \/ Entry.linked_resource current_entry
             <> Entry.linked_resource new_entry)).
Proof.
  unfold entry_was_updated.
  rewrite orb_true_iff, andb_true_iff, !negb_true_iff, !Z.eqb_neq.
  rewrite <- compared_fields_differ, <- entries_are_equal_spec.
  rewrite not_true_iff_false. reflexivity.
Qed.

(** Entries that agree on the five compared members do not count as
    changed when the new update time is zero or equal to the current one. *)
Lemma entry_was_updated_unchanged (current_entry new_entry : Entry.t) :
  compared_fields current_entry = compared_fields new_entry ->
  (seconds (update_time (Entry.source_system_timestamps new_entry)) = 0
   \/ seconds (update_time (Entry.source_system_timestamps current_entry))
      = seconds (update_time (Entry.source_system_timestamps new_entry))) ->
  entry_was_updated current_entry new_entry = false.
Proof.
  intros Hfields Htime. unfold entry_was_updated.
  apply entries_are_equal_spec in Hfields. rewrite Hfields.
  rewrite orb_false_r. apply andb_false_iff.
  destruct Htime as [Hzero|Hsame].
  - left. rewrite Hzero. reflexivity.
  - right. rewrite Hsame, Z.eqb_refl. reflexivity.
Qed.

(** ** Entries *)

Section EntryProperties.

Context {W : Type}.
Variable datacatalog : DataCatalogClient W.

Lemma client_call_eq {A} (c : Call) (op : W -> Result A * W)
    (s : State W) (r : Result A) (w : W) :
  op (world s) = (r, w) ->
  client_call c op s = (r, set_world w (add_call c s)).
Proof. intros H. unfold client_call. rewrite H. reflexivity. Qed.

Lemma bind_logging {A} (f : State W -> State W) (k : M W A) (s : State W) :
  (logging f;; k) s = k (f s).
Proof. reflexivity. Qed.

Lemma bind_mret_r {A} (m : M W A) (s : State W) :
  (x ← m; mret x) s = m s.
Proof.
  unfold mbind, M_bind, bind. destruct (m s) as [[a|e] s']; reflexivity.
Qed.

Lemma log_entry_operation_calls description entry entry_name (s : State W) :
  calls (log_entry_operation description entry entry_name s) = calls s.
Proof. unfold log_entry_operation. destruct entry; reflexivity. Qed.

Lemma log_entry_operation_world description entry entry_name (s : State W) :
  world (log_entry_operation description entry entry_name s) = world s.
Proof. unfold log_entry_operation. destruct entry; reflexivity. Qed.

Lemma log_entry_operation_tag_objects description entry entry_name
    (s : State W) :
  tag_objects (log_entry_operation description entry entry_name s)
  = tag_objects s.
Proof. unfold log_entry_operation. destruct entry; reflexivity. Qed.

(** The calls of the facade's [create_entry]: one create request. *)
Lemma create_entry_calls entry_group_name entry_id entry (s : State W) :
  calls (create_entry datacatalog entry_group_name entry_id entry s).2
  = calls s ++ [CreateEntry entry_group_name entry_id entry].
Proof.
  unfold create_entry, try_except, mbind, M_bind, bind, client_call.
  destruct (dc_create_entry datacatalog _ _ _ _) as [[created|e] w]; simpl.
  - rewrite ?log_entry_operation_calls. reflexivity.
  - destruct (exception_class e); simpl;
      rewrite ?log_entry_operation_calls; reflexivity.
Qed.

(** C2.  When the persisted copy that [get_entry] fetches has the same five
    compared members as the new entry, and the update time of the new entry
    is zero seconds, [upsert_entry] issues the get request and nothing
    else (no update request) and returns the fetched copy as it is. *)
Theorem upsert_entry_up_to_date
    (entry_group_name entry_id : string) (entry persisted : Entry.t)
    (s : State W) (w : W) :
  dc_get_entry datacatalog (entry_group_name +:+ "/entries/" +:+ entry_id)
               (world s) = (Return persisted, w) ->
  Entry.user_specified_system persisted = Entry.user_specified_system entry ->
  Entry.user_specified_type persisted = Entry.user_specified_type entry ->
  Entry.display_name persisted = Entry.display_name entry ->
  Entry.description persisted = Entry.description entry ->
  Entry.linked_resource persisted = Entry.linked_resource entry ->
  seconds (update_time (Entry.source_system_timestamps entry)) = 0 ->
  let entry_name := entry_group_name +:+ "/entries/" +:+ entry_id in
  let s' := (upsert_entry datacatalog entry_group_name entry_id entry s).2 in
  (upsert_entry datacatalog entry_group_name entry_id entry s).1
    = Return persisted
  /\ calls s' = calls s ++ [GetEntry entry_name]
  /\ world s' = w
  /\ log s' = log (log_entry_operation "is up-to-date" (Some persisted) None
                    (log_entry_operation "already exists" None
                                         (Some entry_name) s)).
Proof.
  intros Hget H1 H2 H3 H4 H5 Hts entry_name s'.
  assert (Hsame : entry_was_updated persisted entry = false).
  { apply entry_was_updated_unchanged; [|left; exact Hts].
    unfold compared_fields. congruence. }
  subst s'. unfold upsert_entry, upsert_entry_try, get_entry.
  fold entry_name.
  rewrite (client_call_eq _ _ _ _ _ Hget), Hsame. simpl.
  repeat split.
Qed.

(** C3.  When the [get_entry] inside [upsert_entry] raises
    PermissionDenied, the facade's [create_entry] runs next, on the
    arguments [upsert_entry] was given, and [upsert_entry] ends as that
    call ends: in all, the client sees the get request and then exactly
    one create request with the original group name, entry id and entry,
    and an entry returned by that request is what [upsert_entry]
    returns. *)
Theorem upsert_entry_creates_on_permission_denied
    (entry_group_name entry_id : string) (entry : Entry.t)
    (s : State W) (e : Exception) (w : W) :
  dc_get_entry datacatalog (entry_group_name +:+ "/entries/" +:+ entry_id)
               (world s) = (Raise e, w) ->
  exception_class e = PermissionDenied ->
  let entry_name := entry_group_name +:+ "/entries/" +:+ entry_id in
  let s1 := log_entry_operation "does not exist" None (Some entry_name)
              (set_world w (add_call (GetEntry entry_name) s)) in
  upsert_entry datacatalog entry_group_name entry_id entry s
    = create_entry datacatalog entry_group_name entry_id entry s1
  /\ calls (upsert_entry datacatalog entry_group_name entry_id entry s).2
     = calls s ++ [GetEntry entry_name;
                   CreateEntry entry_group_name entry_id entry]
  /\ (forall created w',
        dc_create_entry datacatalog entry_group_name entry_id entry w
          = (Return created, w') ->
        (upsert_entry datacatalog entry_group_name entry_id entry s).1
          = Return created).
Proof.
  intros Hget Hclass entry_name s1.
  assert (Heq : upsert_entry datacatalog entry_group_name entry_id entry s
                = create_entry datacatalog entry_group_name entry_id entry s1).
  { unfold upsert_entry, upsert_entry_try, get_entry. fold entry_name.
    rewrite (client_call_eq _ _ _ _ _ Hget), Hclass.
    rewrite bind_logging. apply bind_mret_r. }
  split; [exact Heq|]. rewrite Heq. split.
  - rewrite create_entry_calls. subst s1.
    rewrite log_entry_operation_calls. simpl.
    rewrite <- app_assoc. reflexivity.
  - intros created w' Hcreate.
    unfold create_entry, try_except, mbind, M_bind, bind, client_call.
    subst s1. rewrite log_entry_operation_world. simpl.
    rewrite Hcreate. reflexivity.
Qed.

(** C4, as the code has it.  A FailedPrecondition raised inside the [try]
    block of [upsert_entry] is logged with two warnings and no further
    request is made.  Raised by [get_entry], the entry given to
    [upsert_entry] is returned; raised by the update, the copy that
    [get_entry] fetched is returned. *)
Theorem upsert_entry_failed_precondition
    (entry_group_name entry_id : string) (entry : Entry.t)
    (s : State W) (e : Exception) :
  exception_class e = FailedPrecondition ->
  let entry_name := entry_group_name +:+ "/entries/" +:+ entry_id in
  let warn := fun s : State W =>
    logging_warning ("Error: " +:+ str e)
      (logging_warning ("Entry was not updated: " +:+ entry_name) s) in
  (forall w,
     dc_get_entry datacatalog entry_name (world s) = (Raise e, w) ->
     upsert_entry datacatalog entry_group_name entry_id entry s
     = (Return entry, warn (set_world w (add_call (GetEntry entry_name) s))))
  /\ (forall fetched w w',
        dc_get_entry datacatalog entry_name (world s) = (Return fetched, w) ->
        entry_was_updated fetched entry = true ->
        dc_update_entry datacatalog entry None w = (Raise e, w') ->
        upsert_entry datacatalog entry_group_name entry_id entry s
        = (Return fetched,
           warn (set_world w'
                  (add_call (UpdateEntry entry None)
                    (log_entry_operation "already exists" None
                       (Some entry_name)
                       (set_world w (add_call (GetEntry entry_name) s))))))).
Proof.
  intros Hclass entry_name warn. split.
  - intros w Hget.
    unfold upsert_entry, upsert_entry_try, get_entry. fold entry_name.
    rewrite (client_call_eq _ _ _ _ _ Hget), Hclass. reflexivity.
  - intros fetched w w' Hget Hchanged Hupdate.
    unfold upsert_entry, upsert_entry_try, get_entry. fold entry_name.
    rewrite (client_call_eq _ _ _ _ _ Hget), Hchanged.
    unfold update_entry, mbind, M_bind, bind.
    rewrite (client_call_eq (UpdateEntry entry None)
               (dc_update_entry datacatalog entry None) _ (Raise e) w').
    + rewrite Hclass. reflexivity.
    + rewrite log_entry_operation_world. exact Hupdate.
Qed.

(** C7.  [delete_entry] returns normally whatever the delete request does;
    when the request raises, the exception is logged (one info record, one
    debug record with the text of the exception) and goes no further. *)
Theorem delete_entry_never_raises (name : string) (s : State W) :
  (delete_entry datacatalog name s).1 = Return tt
  /\ (forall e w,
        dc_delete_entry datacatalog name (world s) = (Raise e, w) ->
        delete_entry datacatalog name s
        = (Return tt,
           logging_debug (str e)
             (logging_info
                ("An exception ocurred while attempting to delete Entry: "
                 +:+ name)
                (set_world w (add_call (DeleteEntry name) s))))).
Proof.
  split.
  - unfold delete_entry, try_except, mbind, M_bind, bind, client_call.
    destruct (dc_delete_entry datacatalog name (world s)) as [[[]|e] w];
      reflexivity.
  - intros e w Hdelete.
    unfold delete_entry, try_except, mbind, M_bind, bind.
    rewrite (client_call_eq _ _ _ _ _ Hdelete). reflexivity.
Qed.

(** C8.  When the create request raises PermissionDenied, [create_entry]
    logs that the entry was not created, logs the exception as a warning,
    and returns the entry it was given; an exception of any other class
    reaches the caller. *)
Theorem create_entry_on_failure
    (entry_group_name entry_id : string) (entry : Entry.t)
    (s : State W) (e : Exception) (w : W) :
  dc_create_entry datacatalog entry_group_name entry_id entry (world s)
    = (Raise e, w) ->
  let s1 := set_world w
              (add_call (CreateEntry entry_group_name entry_id entry) s) in
  (exception_class e = PermissionDenied ->
     create_entry datacatalog entry_group_name entry_id entry s
     = (Return entry,
        logging_warning ("Error: " +:+ str e)
          (log_entry_operation "was not created" None
             (Some (entry_group_name +:+ "/entries/" +:+ entry_id)) s1)))
  /\ (exception_class e <> PermissionDenied ->
        create_entry datacatalog entry_group_name entry_id entry s
        = (Raise e, s1)).
Proof.
  intros Hcreate s1.
  unfold create_entry, try_except, mbind, M_bind, bind.
  rewrite (client_call_eq _ _ _ _ _ Hcreate). fold s1. split.
  - intros ->. reflexivity.
  - intros Hne. destruct (exception_class e); [contradiction|..]; reflexivity.
Qed.

(** C9.  [search_catalog] issues one search request: its scope holds the
    project id of the facade and nothing else, the order is "relevance"
    and the page size 1000; the items of the answer are returned as a
    list.  [search_catalog_relative_resource_name] does the same request
    and returns the relative resource names of those items, in order. *)
Theorem search_catalog_request (project_id query : string) (s : State W) :
  let scope := {| Scope.include_org_ids := [];
                  Scope.include_project_ids := [project_id];
                  Scope.include_gcp_public_datasets := false |} in
  calls (search_catalog datacatalog project_id query s).2
    = calls s ++ [SearchCatalog scope query "relevance" 1000]
  /\ (forall results w,
        dc_search_catalog datacatalog scope query "relevance" 1000 (world s)
          = (Return results, w) ->
        search_catalog datacatalog project_id query s
        = (Return results,
           set_world w
             (add_call (SearchCatalog scope query "relevance" 1000) s)))
  /\ (search_catalog_relative_resource_name datacatalog project_id query s).1
     = match (search_catalog datacatalog project_id query s).1 with
       | Return results =>
           Return (map SearchCatalogResult.relative_resource_name results)
       | Raise e => Raise e
       end
  /\ (search_catalog_relative_resource_name datacatalog project_id query s).2
     = (search_catalog datacatalog project_id query s).2.
Proof.
  intros scope.
  unfold search_catalog_relative_resource_name, search_catalog,
    mbind, M_bind, bind, client_call.
  change (Scope.append_project_id project_id Scope.empty) with scope.
  destruct (dc_search_catalog datacatalog scope query "relevance" 1000
              (world s)) as [[results|e] w] eqn:Hsearch.
  - repeat split. intros results' w' [= <- <-]. reflexivity.
  - repeat split. intros results' w' [=].
Qed.

End EntryProperties.

(** ** Tag equality *)

(** Recording the default message under a key that was absent, as reading a
    protobuf map does, changes no later read: [__tags_fields_are_equal] may
    be followed on values. *)
Lemma fields_getitem_recorded (m : gmap string TagField.t) (k k' : string) :
  m !! k = None ->
  fields_getitem (<[k := TagField.default]> m) k' = fields_getitem m k'.
Proof.
  intros Hnone. unfold fields_getitem.
  destruct (decide (k = k')) as [<-|Hne].
  - rewrite lookup_insert_eq, Hnone. reflexivity.
  - rewrite lookup_insert_ne by exact Hne. reflexivity.
Qed.

Lemma tags_fields_are_equal_loop_spec (field_ids : list string)
    (tag_1 tag_2 : Tag.t) :
  tags_fields_are_equal_loop field_ids tag_1 tag_2 = true
  <-> (forall field_id, In field_id field_ids ->
         tag_field_values_are_equal
           (fields_getitem (Tag.fields tag_1) field_id)
           (fields_getitem (Tag.fields tag_2) field_id) = true).
Proof.
  induction field_ids as [|field_id rest IH]; simpl.
  - split; [intros _ ? [] | reflexivity].
  - destruct (tag_field_values_are_equal _ _) eqn:Heq; simpl.
    + rewrite IH. split.
      * intros H f [<-|Hin]; [exact Heq | exact (H f Hin)].
      * intros H f Hin. apply H. right. exact Hin.
    + split; [discriminate|]. intros H.
      rewrite (H field_id) in Heq by (left; reflexivity). discriminate.
Qed.

(** Equality as the predicate sees it: only the field ids of [tag_1] are
    looked at. *)
Lemma tags_fields_are_equal_spec (tag_1 tag_2 : Tag.t) :
  tags_fields_are_equal tag_1 tag_2 = true
  <-> (forall field_id tag_1_field,
         Tag.fields tag_1 !! field_id = Some tag_1_field ->
         tag_field_values_are_equal
           tag_1_field (fields_getitem (Tag.fields tag_2) field_id) = true).
Proof.
  unfold tags_fields_are_equal. rewrite tags_fields_are_equal_loop_spec. split.
  - intros H field_id tag_1_field Hlookup.
    specialize (H field_id). unfold fields_getitem at 1 in H.
    rewrite Hlookup in H. apply H.
    apply in_map_iff. exists (field_id, tag_1_field). split; [reflexivity|].
    apply list_elem_of_In, elem_of_map_to_list. exact Hlookup.
  - intros H field_id Hin.
    apply in_map_iff in Hin as [[k v] [Hk Hin]]. simpl in Hk. subst k.
    apply list_elem_of_In, elem_of_map_to_list in Hin.
    unfold fields_getitem at 1. rewrite Hin. simpl. apply H. exact Hin.
Qed.

(** Two tags with the same fields are equal for the predicate, provided no
    double among them is a NaN (which differs from itself). *)
Lemma tags_fields_are_equal_same_fields (tag_1 tag_2 : Tag.t) :
  Tag.fields tag_2 = Tag.fields tag_1 ->
  (forall field_id tag_1_field,
     Tag.fields tag_1 !! field_id = Some tag_1_field ->
     PrimFloat.eqb (TagField.double_value tag_1_field)
                   (TagField.double_value tag_1_field) = true) ->
  tags_fields_are_equal tag_1 tag_2 = true.
Proof.
  intros Hfields Hnan. apply tags_fields_are_equal_spec.
  intros field_id tag_1_field Hlookup.
  unfold fields_getitem. rewrite Hfields, Hlookup. simpl.
  unfold tag_field_values_are_equal.
  rewrite Bool.eqb_reflx, !String.eqb_refl, Z.eqb_refl,
    (Hnan field_id tag_1_field Hlookup).
  reflexivity.
Qed.

(** The predicate reads the fields of its arguments, not their names. *)
Lemma tags_fields_are_equal_set_name (n : string) (tag_1 tag_2 : Tag.t) :
  tags_fields_are_equal (Tag.set_name n tag_1) tag_2
  = tags_fields_are_equal tag_1 tag_2.
Proof.
  unfold tags_fields_are_equal.
  change (Tag.fields (Tag.set_name n tag_1)) with (Tag.fields tag_1).
  induction (map fst (map_to_list (Tag.fields tag_1))) as [|field_id rest IH];
    simpl; [reflexivity|].
  rewrite IH. reflexivity.
Qed.

(** C6.  [__tags_fields_are_equal] goes through the field ids of its first
    argument only, and for each compares the boolean, double, string,
    timestamp-seconds and enum-display-name values; so it is not symmetric:
    a tag with one field and a tag with none are unequal one way round and
    equal the other. *)
Theorem tags_fields_are_equal_not_symmetric :
  (forall tag_1 tag_2 : Tag.t,
     tags_fields_are_equal tag_1 tag_2 = true
     <-> (forall field_id tag_1_field,
            Tag.fields tag_1 !! field_id = Some tag_1_field ->
            let tag_2_field := fields_getitem (Tag.fields tag_2) field_id in
            TagField.bool_value tag_1_field = TagField.bool_value tag_2_field
            /\ PrimFloat.eqb (TagField.double_value tag_1_field)
                             (TagField.double_value tag_2_field) = true
            /\ TagField.string_value tag_1_field
               = TagField.string_value tag_2_field
            /\ seconds (TagField.timestamp_value tag_1_field)
               = seconds (TagField.timestamp_value tag_2_field)
            /\ TagField.enum_value_display_name tag_1_field
               = TagField.enum_value_display_name tag_2_field))
  /\ (exists tag_1 tag_2 : Tag.t,
        dom (Tag.fields tag_1) <> dom (Tag.fields tag_2)
        /\ tags_fields_are_equal tag_1 tag_2 = false
        /\ tags_fields_are_equal tag_2 tag_1 = true).
Proof.
  split.
  - intros tag_1 tag_2. rewrite tags_fields_are_equal_spec.
    unfold tag_field_values_are_equal.
    split; intros H field_id tag_1_field Hlookup;
      specialize (H field_id tag_1_field Hlookup); simpl in *.
    + rewrite !andb_true_iff in H.
      destruct H as [[[[H1 H2] H3] H4] H5].
      apply Bool.eqb_prop in H1. apply String.eqb_eq in H3, H5.
      apply Z.eqb_eq in H4. auto.
    + destruct H as (H1 & H2 & H3 & H4 & H5).
      rewrite !andb_true_iff. repeat split.
      * rewrite H1. apply Bool.eqb_reflx.
      * exact H2.
      * apply String.eqb_eq. exact H3.
      * apply Z.eqb_eq. exact H4.
      * apply String.eqb_eq. exact H5.
  - exists (Mock.tag "" "tpl" [("a", Mock.string_field "x")]),
           (Mock.tag "" "tpl" []).
    split; [|split]; [|vm_compute; reflexivity..].
    intros Hdom.
    assert (Hin : "a" ∈ dom (Tag.fields
                    (Mock.tag "" "tpl" [("a", Mock.string_field "x")]))).
    { apply elem_of_dom. eexists. simpl. apply lookup_insert_eq. }
    rewrite Hdom in Hin. simpl in Hin. set_solver.
Qed.

(** ** upsert_tags *)

Definition same_template (tag persisted_tag : Tag.t) : bool :=
  String.eqb (Tag.template tag) (Tag.template persisted_tag).

(** A persisted tag of the same template whose fields differ from those of
    [tag], by the tag-equality predicate. *)
Definition differs_from (tag persisted_tag : Tag.t) : bool :=
  same_template tag persisted_tag
  && negb (tags_fields_are_equal tag persisted_tag).

(** What the inner loop leaves in the object it scans for: each persisted
    tag of the same template, in turn, gives its name. *)
Definition scan_object (tag : Tag.t) (persisted_tags : list Tag.t) : Tag.t :=
  fold_left
    (fun t persisted_tag =>
       if same_template t persisted_tag
       then Tag.set_name (Tag.name persisted_tag) t else t)
    persisted_tags tag.

Definition is_create_or_update_tag (c : Call) : bool :=
  match c with
  | CreateTag _ _ | UpdateTag _ _ => true
  | _ => false
  end.

(** The requests one pass of the outer loop issues for the object [tag]. *)
Definition requests_for (entry : Entry.t) (persisted_tags : list Tag.t)
    (tag : Tag.t) : list Call :=
  if existsb (same_template tag) persisted_tags then
    if existsb (differs_from tag) persisted_tags
    then [UpdateTag (scan_object tag persisted_tags) None]
    else []
  else [CreateTag (Entry.name entry) tag].

Lemma scan_object_template (tag : Tag.t) (persisted_tags : list Tag.t) :
  Tag.template (scan_object tag persisted_tags) = Tag.template tag
  /\ Tag.fields (scan_object tag persisted_tags) = Tag.fields tag
  /\ Tag.column (scan_object tag persisted_tags) = Tag.column tag.
Proof.
  unfold scan_object. revert tag.
  induction persisted_tags as [|p rest IH]; intros tag; simpl; [auto|].
  destruct (same_template tag p); [|apply IH].
  destruct (IH (Tag.set_name (Tag.name p) tag)) as (H1 & H2 & H3).
  rewrite H1, H2, H3. auto.
Qed.

(** The name that ends up in the object is that of the last persisted tag of
    the same template, when there is one. *)
Lemma scan_object_last (tag : Tag.t) (persisted_tags : list Tag.t) :
  scan_object tag persisted_tags
  = match last (List.filter (same_template tag) persisted_tags) with
    | Some p => Tag.set_name (Tag.name p) tag
    | None => tag
    end.
Proof.
  induction persisted_tags as [|p rest IH] using rev_ind; [reflexivity|].
  unfold scan_object in *. rewrite fold_left_app, List.filter_app. simpl.
  rewrite IH.
  assert (Hsame : forall t', same_template
            match last (List.filter (same_template tag) rest) with
            | Some p0 => Tag.set_name (Tag.name p0) tag
            | None => tag
            end t' = same_template tag t').
  { intros t'. destruct (last _); reflexivity. }
  rewrite Hsame. destruct (same_template tag p).
  - rewrite last_snoc. destruct (last _); reflexivity.
  - rewrite app_nil_r. reflexivity.
Qed.

Lemma scan_object_idempotent (tag : Tag.t) (persisted_tags : list Tag.t) :
  scan_object (scan_object tag persisted_tags) persisted_tags
  = scan_object tag persisted_tags.
Proof.
  rewrite (scan_object_last tag).
  destruct (last (List.filter (same_template tag) persisted_tags)) as [p|] eqn:E.
  - rewrite scan_object_last.
    change (same_template (Tag.set_name (Tag.name p) tag))
      with (same_template tag).
    rewrite E. reflexivity.
  - rewrite scan_object_last, E. reflexivity.
Qed.

Lemma existsb_differs_from_set_name (n : string) (tag : Tag.t)
    (persisted_tags : list Tag.t) :
  existsb (differs_from (Tag.set_name n tag)) persisted_tags
  = existsb (differs_from tag) persisted_tags.
Proof.
  induction persisted_tags as [|p rest IH]; simpl; [reflexivity|].
  rewrite IH. unfold differs_from.
  rewrite tags_fields_are_equal_set_name. reflexivity.
Qed.

Lemma scan_object_cons (tag p : Tag.t) (rest : list Tag.t) :
  scan_object tag (p :: rest)
  = scan_object (if same_template tag p
                 then Tag.set_name (Tag.name p) tag else tag) rest.
Proof. reflexivity. Qed.

Lemma upsert_tags_scan_cons {W} (tag : TagRef) (p : Tag.t) (rest : list Tag.t)
    (tag_to_create tag_to_update : option TagRef) (s : State W) :
  upsert_tags_scan tag (p :: rest) tag_to_create tag_to_update s
  = if same_template (tag_objects s tag) p then
      let s1 := write_tag tag
                  (Tag.set_name (Tag.name p) (tag_objects s tag)) s in
      upsert_tags_scan tag rest None
        (if negb (tags_fields_are_equal (tag_objects s1 tag) p)
         then Some tag else tag_to_update) s1
    else upsert_tags_scan tag rest tag_to_create tag_to_update s.
Proof.
  unfold same_template. cbn [upsert_tags_scan].
  unfold mbind at 1, M_bind at 1, bind at 1, read_tag at 1.
  destruct (String.eqb _ _); [|reflexivity].
  unfold mbind at 1, M_bind at 1, bind at 1, assign_tag_name at 1.
  unfold mbind at 1, M_bind at 1, bind at 1, read_tag at 1. cbv zeta.
  destruct (negb _); reflexivity.
Qed.

Section TagProperties.

Context {W : Type}.
Variable datacatalog : DataCatalogClient W.

(** The inner loop: it never raises, touches nothing but the object it scans
    for, and leaves the two locals as follows. *)
Lemma upsert_tags_scan_spec (tag : TagRef) (persisted_tags : list Tag.t)
    (tag_to_create tag_to_update : option TagRef) (s : State W) :
  let t := tag_objects s tag in
  let s' := (upsert_tags_scan tag persisted_tags
               tag_to_create tag_to_update s).2 in
  (upsert_tags_scan tag persisted_tags tag_to_create tag_to_update s).1
  = Return
      (if existsb (same_template t) persisted_tags then None else tag_to_create,
       if existsb (differs_from t) persisted_tags then Some tag
       else tag_to_update)
  /\ world s' = world s /\ calls s' = calls s /\ log s' = log s
  /\ (forall r, tag_objects s' r
                = if Nat.eqb r tag then scan_object t persisted_tags
                  else tag_objects s r).
Proof.
  revert tag_to_create tag_to_update s.
  induction persisted_tags as [|p rest IH];
    intros tag_to_create tag_to_update s; cbv zeta.
  - cbn. repeat split. intros r.
    destruct (Nat.eqb_spec r tag) as [->|]; reflexivity.
  - rewrite upsert_tags_scan_cons. cbv zeta. cbn [existsb].
    rewrite scan_object_cons. unfold differs_from at 1.
    destruct (same_template (tag_objects s tag) p) eqn:Hsame; cbn [andb orb].
    + set (s1 := write_tag tag
                   (Tag.set_name (Tag.name p) (tag_objects s tag)) s).
      assert (Hobj : tag_objects s1 tag
                     = Tag.set_name (Tag.name p) (tag_objects s tag)).
      { subst s1. simpl. rewrite Nat.eqb_refl. reflexivity. }
      rewrite Hobj, tags_fields_are_equal_set_name.
      set (u := if negb (tags_fields_are_equal (tag_objects s tag) p)
                then Some tag else tag_to_update).
      destruct (IH None u s1) as (H1 & H2 & H3 & H4 & H5).
      rewrite Hobj in H1, H5.
      rewrite existsb_differs_from_set_name in H1.
      change (same_template (Tag.set_name (Tag.name p) (tag_objects s tag)))
        with (same_template (tag_objects s tag)) in H1.
      split; [|split; [exact H2 | split; [exact H3 | split; [exact H4 |]]]].
      * rewrite H1. subst u.
        destruct (tags_fields_are_equal (tag_objects s tag) p),
          (existsb (same_template (tag_objects s tag)) rest),
          (existsb (differs_from (tag_objects s tag)) rest); reflexivity.
      * intros r. rewrite H5. subst s1. simpl.
        destruct (Nat.eqb r tag); reflexivity.
    + exact (IH tag_to_create tag_to_update s).
Qed.

Lemma differs_from_no_match (tag : Tag.t) (persisted_tags : list Tag.t) :
  existsb (same_template tag) persisted_tags = false ->
  existsb (differs_from tag) persisted_tags = false.
Proof.
  induction persisted_tags as [|p rest IH]; [reflexivity|].
  cbn [existsb]. intros [Hp Hrest]%orb_false_iff.
  unfold differs_from at 1. rewrite Hp, (IH Hrest). reflexivity.
Qed.

Lemma scan_object_no_match (tag : Tag.t) (persisted_tags : list Tag.t) :
  existsb (same_template tag) persisted_tags = false ->
  scan_object tag persisted_tags = tag.
Proof.
  induction persisted_tags as [|p rest IH]; [reflexivity|].
  cbn [existsb]. intros [Hp Hrest]%orb_false_iff.
  rewrite scan_object_cons, Hp. exact (IH Hrest).
Qed.

(** One pass of the outer loop: the requests it issues and what it leaves
    in the store, whether or not the request raises. *)
Lemma upsert_tags_body_spec (entry : Entry.t) (persisted_tags : list Tag.t)
    (tag : TagRef) (s : State W) :
  let t := tag_objects s tag in
  let s' := (upsert_tags_body datacatalog entry persisted_tags tag s).2 in
  calls s' = calls s ++ requests_for entry persisted_tags t
  /\ (forall r, tag_objects s' r
                = if Nat.eqb r tag then scan_object t persisted_tags
                  else tag_objects s r).
Proof.
  cbv zeta.
  unfold upsert_tags_body, mbind, M_bind, bind, read_tag, logging.
  cbv beta iota.
  set (s0 := logging_info _ s).
  destruct (upsert_tags_scan_spec tag persisted_tags (Some tag) None s0)
    as (H1 & H2 & H3 & H4 & H5).
  change (tag_objects s0 tag) with (tag_objects s tag) in H1, H5.
  change (calls s0) with (calls s) in H3.
  assert (H5' : forall r,
    tag_objects (upsert_tags_scan tag persisted_tags (Some tag) None s0).2 r
    = if Nat.eqb r tag then scan_object (tag_objects s tag) persisted_tags
      else tag_objects s r).
  { intros r. rewrite H5. reflexivity. }
  clear H5.
  destruct (upsert_tags_scan tag persisted_tags (Some tag) None s0)
    as [[[c u]|e] s1]; simpl in H1, H2, H3, H4, H5'; [|discriminate].
  injection H1 as -> ->. unfold requests_for.
  assert (Hobj : tag_objects s1 tag
                 = scan_object (tag_objects s tag) persisted_tags).
  { rewrite H5', Nat.eqb_refl. reflexivity. }
  destruct (existsb (same_template (tag_objects s tag)) persisted_tags) eqn:Hm.
  - destruct (existsb (differs_from (tag_objects s tag)) persisted_tags).
    + unfold update_tag, mbind, M_bind, bind, read_tag, client_call.
      rewrite Hobj.
      destruct (dc_update_tag datacatalog _ None (world s1)) as [[updated|e] w];
        simpl; rewrite H3; split; try reflexivity; exact H5'.
    + unfold mbind, M_bind, bind, read_tag, logging. simpl.
      rewrite H3, app_nil_r. split; [reflexivity | exact H5'].
  - rewrite (scan_object_no_match _ _ Hm) in Hobj.
    unfold create_tag, mbind, M_bind, bind, read_tag, client_call.
    rewrite Hobj.
    destruct (dc_create_tag datacatalog _ _ (world s1)) as [[created|e] w];
      simpl; rewrite H3; split; try reflexivity; exact H5'.
Qed.

Lemma requests_for_at_most_one (entry : Entry.t) (persisted_tags : list Tag.t)
    (tag : Tag.t) :
  (length (requests_for entry persisted_tags tag) <= 1)%nat
  /\ forallb is_create_or_update_tag (requests_for entry persisted_tags tag)
     = true.
Proof.
  unfold requests_for.
  destruct (existsb (same_template tag) persisted_tags),
    (existsb (differs_from tag) persisted_tags); simpl; auto.
Qed.

Lemma existsb_same_template (tag : Tag.t) (persisted_tags : list Tag.t) :
  existsb (same_template tag) persisted_tags = true
  <-> (exists p, In p persisted_tags /\ Tag.template p = Tag.template tag).
Proof.
  rewrite existsb_exists. unfold same_template.
  split; intros (p & Hin & H); exists p; split; try exact Hin.
  - symmetry. apply String.eqb_eq. exact H.
  - apply String.eqb_eq. symmetry. exact H.
Qed.

Lemma existsb_differs_from (tag : Tag.t) (persisted_tags : list Tag.t) :
  existsb (differs_from tag) persisted_tags = true
  <-> (exists p, In p persisted_tags /\ Tag.template p = Tag.template tag
                 /\ tags_fields_are_equal tag p = false).
Proof.
  rewrite existsb_exists. unfold differs_from, same_template.
  split; intros (p & Hin & H); exists p; split; try exact Hin.
  - apply andb_true_iff in H as [H1 H2]. apply String.eqb_eq in H1.
    apply negb_true_iff in H2. auto.
  - destruct H as [H1 H2]. rewrite H1, String.eqb_refl, H2. reflexivity.
Qed.

(** The outer loop: the requests of all its passes. *)
Lemma for_each_upsert_tags_body_calls (entry : Entry.t)
    (persisted_tags : list Tag.t) (tags : list TagRef) (s : State W) :
  exists l,
    calls (for_each tags (upsert_tags_body datacatalog entry persisted_tags) s).2
    = calls s ++ l
    /\ (length l <= length tags)%nat
    /\ forallb is_create_or_update_tag l = true.
Proof.
  revert s. induction tags as [|tag rest IH]; intros s.
  - exists []. simpl. rewrite app_nil_r. auto.
  - cbn [for_each]. unfold mbind, M_bind, bind.
    destruct (upsert_tags_body_spec entry persisted_tags tag s) as [Hcalls _].
    destruct (requests_for_at_most_one entry persisted_tags (tag_objects s tag))
      as [Hlen Hall].
    destruct (upsert_tags_body datacatalog entry persisted_tags tag s)
      as [[[]|e] s1]; simpl in Hcalls.
    + destruct (IH s1) as (l & Hl & Hlen' & Hall').
      exists (requests_for entry persisted_tags (tag_objects s tag) ++ l).
      rewrite Hl, Hcalls, <- app_assoc, length_app, forallb_app, Hall, Hall'.
      simpl. repeat split. lia.
    + exists (requests_for entry persisted_tags (tag_objects s tag)).
      simpl. repeat split; [exact Hcalls | lia | exact Hall].
Qed.

(** The outer loop: what it leaves in the store when no pass raises. *)
Lemma for_each_upsert_tags_body_objects (entry : Entry.t)
    (persisted_tags : list Tag.t) (tags : list TagRef) (s : State W) :
  (for_each tags (upsert_tags_body datacatalog entry persisted_tags) s).1
    = Return tt ->
  forall r,
    tag_objects
      (for_each tags (upsert_tags_body datacatalog entry persisted_tags) s).2 r
    = if bool_decide (r ∈ tags)
      then scan_object (tag_objects s r) persisted_tags
      else tag_objects s r.
Proof.
  revert s. induction tags as [|tag rest IH]; intros s Hret r.
  - reflexivity.
  - cbn [for_each] in *. unfold mbind, M_bind, bind in *.
    destruct (upsert_tags_body_spec entry persisted_tags tag s) as [_ Hobj].
    destruct (upsert_tags_body datacatalog entry persisted_tags tag s)
      as [[[]|e] s1]; simpl in Hobj; [|discriminate].
    rewrite (IH s1 Hret r), !Hobj.
    destruct (Nat.eqb_spec r tag) as [->|Hne].
    + rewrite (bool_decide_eq_true_2 (tag ∈ tag :: rest))
        by (apply elem_of_cons; left; reflexivity).
      rewrite scan_object_idempotent.
      destruct (bool_decide (tag ∈ rest)); reflexivity.
    + destruct (bool_decide (r ∈ rest)) eqn:Hin.
      * apply bool_decide_eq_true in Hin.
        rewrite (bool_decide_eq_true_2 (r ∈ tag :: rest))
          by (apply elem_of_cons; right; exact Hin).
        reflexivity.
      * apply bool_decide_eq_false in Hin.
        rewrite (bool_decide_eq_false_2 (r ∈ tag :: rest)); [reflexivity|].
        intros [Heq|Hin']%elem_of_cons; [exact (Hne Heq) | exact (Hin Hin')].
Qed.

(** C5, as the code has it.  [upsert_tags] issues nothing at all for an
    empty list; otherwise one list request and then, for each input tag, at
    most one request, a create or an update.  A pass issues no request for
    an input tag when the entry has a persisted tag of its template and the
    tag-equality predicate holds against every persisted tag of that
    template. *)
Theorem upsert_tags_requests (entry : Entry.t) :
  (forall persisted_tags tag (s : State W),
     exists l,
       calls (upsert_tags_body datacatalog entry persisted_tags tag s).2
       = calls s ++ l
       /\ (length l <= 1)%nat
       /\ forallb is_create_or_update_tag l = true)
  /\ (forall tags (s : State W),
        exists l,
          calls (upsert_tags datacatalog entry tags s).2
          = calls s ++ match tags with
                       | [] => []
                       | _ => ListTags (Entry.name entry) :: l
                       end
          /\ (length l <= length tags)%nat
          /\ forallb is_create_or_update_tag l = true)
  /\ (forall persisted_tags tag (s : State W),
        (exists p, In p persisted_tags
                   /\ Tag.template p = Tag.template (tag_objects s tag)) ->
        (forall p, In p persisted_tags ->
                   Tag.template p = Tag.template (tag_objects s tag) ->
                   tags_fields_are_equal (tag_objects s tag) p = true) ->
        calls (upsert_tags_body datacatalog entry persisted_tags tag s).2
        = calls s)
  /\ (forall s : State W,
        upsert_tags datacatalog entry [] s = (Return tt, s)).
Proof.
  split; [|split; [|split]].
  - intros persisted_tags tag s.
    exists (requests_for entry persisted_tags (tag_objects s tag)).
    split; [apply upsert_tags_body_spec | apply requests_for_at_most_one].
  - intros [|tag rest] s.
    + exists []. simpl. rewrite app_nil_r. auto.
    + unfold upsert_tags, list_tags, mbind, M_bind, bind, client_call.
      destruct (dc_list_tags datacatalog (Entry.name entry) (world s))
        as [[persisted_tags|e] w].
      * set (s0 := set_world w (add_call (ListTags (Entry.name entry)) s)).
        destruct (for_each_upsert_tags_body_calls entry persisted_tags
                    (tag :: rest) s0) as (l & Hl & Hlen & Hall).
        exists l. rewrite Hl. subst s0. simpl.
        rewrite <- app_assoc. auto.
      * exists []. simpl. repeat split. lia.
  - intros persisted_tags tag s Hsome Hall.
    destruct (upsert_tags_body_spec entry persisted_tags tag s) as [Hcalls _].
    rewrite Hcalls. unfold requests_for.
    apply existsb_same_template in Hsome. rewrite Hsome.
    destruct (existsb (differs_from (tag_objects s tag)) persisted_tags)
      eqn:Hd; [|apply app_nil_r].
    apply existsb_differs_from in Hd as (p & Hin & Htpl & Hneq).
    rewrite (Hall p Hin Htpl) in Hneq. discriminate.
  - reflexivity.
Qed.

(** C10, as the code has it.  A pass of the outer loop writes to the input
    object: when persisted tags of its template exist, its name becomes that
    of the last of them in list order, whether or not a request follows, and
    nothing else in the store changes.  The pass issues an update request
    exactly when some persisted tag of that template, not necessarily the
    last, differs from the input tag by the tag-equality predicate.  When
    the whole of [upsert_tags] returns normally, every input object has been
    renamed in that way. *)
Theorem upsert_tags_overwrites_name (entry : Entry.t)
    (persisted_tags : list Tag.t) :
  (forall tag (s : State W),
     let t := tag_objects s tag in
     let s' := (upsert_tags_body datacatalog entry persisted_tags tag s).2 in
     (forall p, last (List.filter (same_template t) persisted_tags) = Some p ->
                tag_objects s' tag = Tag.set_name (Tag.name p) t)
     /\ (forall r, r <> tag -> tag_objects s' r = tag_objects s r)
     /\ ((exists updated, calls s' = calls s ++ [UpdateTag updated None])
         <-> (exists p, In p persisted_tags
                        /\ Tag.template p = Tag.template t
                        /\ tags_fields_are_equal t p = false)))
  /\ (forall tags (s : State W) w,
        dc_list_tags datacatalog (Entry.name entry) (world s)
          = (Return persisted_tags, w) ->
        (upsert_tags datacatalog entry tags s).1 = Return tt ->
        forall tag p,
          In tag tags ->
          last (List.filter (same_template (tag_objects s tag)) persisted_tags)
            = Some p ->
          tag_objects (upsert_tags datacatalog entry tags s).2 tag
          = Tag.set_name (Tag.name p) (tag_objects s tag)).
Proof.
  split.
  - intros tag s t s'.
    destruct (upsert_tags_body_spec entry persisted_tags tag s)
      as [Hcalls Hobj].
    fold t in Hcalls, Hobj. fold s' in Hcalls, Hobj.
    split; [|split].
    + intros p Hlast. rewrite Hobj, Nat.eqb_refl, scan_object_last, Hlast.
      reflexivity.
    + intros r Hne. rewrite Hobj.
      destruct (Nat.eqb_spec r tag); [contradiction | reflexivity].
    + rewrite <- existsb_differs_from, Hcalls. unfold requests_for.
      destruct (existsb (same_template t) persisted_tags) eqn:Hm.
      * destruct (existsb (differs_from t) persisted_tags).
        -- split; [reflexivity|]. intros _. eexists. reflexivity.
        -- split; [|discriminate]. intros [updated H].
           apply app_inv_head in H. discriminate.
      * rewrite (differs_from_no_match _ _ Hm).
        split; [|discriminate]. intros [updated H].
        apply app_inv_head in H. discriminate.
  - intros tags s w Hlist Hret tag p Hin Hlast.
    destruct tags as [|tag0 rest]; [destruct Hin|].
    unfold upsert_tags, list_tags, mbind, M_bind, bind in *.
    rewrite (client_call_eq _ _ _ _ _ Hlist) in *.
    rewrite (for_each_upsert_tags_body_objects _ _ _ _ Hret).
    rewrite bool_decide_eq_true_2 by (apply list_elem_of_In; exact Hin).
    simpl. rewrite scan_object_last, Hlast. reflexivity.
Qed.

End TagProperties.

(** ** Scenarios on the scripted client *)

(** The input tag of the scenarios, the persisted tag of the entry that has
    the same field values, and a persisted tag of the same template, on a
    column, that has not. *)
Definition sample_tag : Tag.t :=
  Mock.tag "" "tpl" [("owner", Mock.string_field "x")].
Definition sample_tag_equal : Tag.t :=
  Mock.tag "entries/t/tags/1" "tpl" [("owner", Mock.string_field "x")].
Definition sample_tag_other : Tag.t :=
  Mock.column_tag "entries/t/tags/2" "tpl" "price"
    [("owner", Mock.string_field "y")].

Definition permission_denied : Exception :=
  Mock.error PermissionDenied "403 permission denied".
Definition failed_precondition : Exception :=
  Mock.error FailedPrecondition "400 failed precondition".

(** Spec scenario: the persisted entry has display name A, the new one B,
    both timestamps zero: one update request, with the new entry. *)
Example upsert_entry_display_name_changed :
  calls (upsert_entry
           (Mock.client (Mock.entries (Return (Mock.persisted_entry "A"))
                                      (Return (Mock.persisted_entry "B"))
                                      (Raise Mock.unavailable)))
           "g" "t" (Mock.entry "B") (Mock.initial [])).2
  = [GetEntry "g/entries/t"; UpdateEntry (Mock.entry "B") None].
Proof. vm_compute. reflexivity. Qed.

Example log_entry_operation_created :
  log (log_entry_operation "created" (Some (Mock.persisted_entry "A")) None
         (Mock.initial []))
  = [{| level := INFO;
        message := "Entry created: projects/p/locations/l/entryGroups/g/entries/t" |};
     {| level := INFO;
        message := "               ^ [table] //metastore/db/t" |}].
Proof. vm_compute. reflexivity. Qed.

(** A double that is not a number differs from itself: a tag that carries
    one is never up to date. *)
Example tags_fields_are_equal_nan :
  let tag := Mock.tag "" "tpl"
    [("ratio", {| TagField.display_name := "";
                  TagField.value := TagField.double_value_of nan |})] in
  tags_fields_are_equal tag tag = false.
Proof. vm_compute. reflexivity. Qed.

Lemma upsert_entry_up_to_date_witness :
  let r := upsert_entry
             (Mock.client (Mock.entries (Return (Mock.persisted_entry "A"))
                                        (Raise Mock.unavailable)
                                        (Raise Mock.unavailable)))
             "g" "t" (Mock.entry "A") (Mock.initial []) in
  r.1 = Return (Mock.persisted_entry "A")
  /\ calls r.2 = [GetEntry "g/entries/t"]
  /\ world r.2 = tt
  /\ log r.2
     = log (log_entry_operation "is up-to-date"
              (Some (Mock.persisted_entry "A")) None
              (log_entry_operation "already exists" None
                 (Some "g/entries/t") (Mock.initial []))).
Proof.
  apply (upsert_entry_up_to_date
           (Mock.client (Mock.entries (Return (Mock.persisted_entry "A"))
                                      (Raise Mock.unavailable)
                                      (Raise Mock.unavailable)))
           "g" "t" (Mock.entry "A") (Mock.persisted_entry "A")
           (Mock.initial []) tt); reflexivity.
Defined.

Lemma upsert_entry_creates_on_permission_denied_witness :
  let dc := Mock.client (Mock.entries (Raise permission_denied)
                                      (Raise Mock.unavailable)
                                      (Return (Mock.persisted_entry "A"))) in
  let r := upsert_entry dc "g" "t" (Mock.entry "A") (Mock.initial []) in
  calls r.2 = [GetEntry "g/entries/t"; CreateEntry "g" "t" (Mock.entry "A")]
  /\ r.1 = Return (Mock.persisted_entry "A").
Proof.
  destruct (upsert_entry_creates_on_permission_denied
              (Mock.client (Mock.entries (Raise permission_denied)
                                         (Raise Mock.unavailable)
                                         (Return (Mock.persisted_entry "A"))))
              "g" "t" (Mock.entry "A") (Mock.initial []) permission_denied tt
              eq_refl eq_refl) as (_ & Hcalls & Hresult).
  split; [exact Hcalls | exact (Hresult _ tt eq_refl)].
Defined.

(** The update of an entry that exists is refused with FailedPrecondition:
    [upsert_entry] returns the copy it fetched, not the entry it was
    given. *)
Lemma upsert_entry_failed_update_returns_fetched :
  let dc := Mock.client (Mock.entries (Return (Mock.persisted_entry "A"))
                                      (Raise failed_precondition)
                                      (Raise Mock.unavailable)) in
  let r := upsert_entry dc "g" "t" (Mock.entry "B") (Mock.initial []) in
  exception_class failed_precondition = FailedPrecondition
  /\ calls r.2 = [GetEntry "g/entries/t"; UpdateEntry (Mock.entry "B") None]
  /\ r.1 = Return (Mock.persisted_entry "A")
  /\ r.1 <> Return (Mock.entry "B").
Proof.
  cbv zeta. repeat split. vm_compute. discriminate.
Qed.

Lemma upsert_entry_failed_precondition_witness :
  upsert_entry
    (Mock.client (Mock.entries (Raise failed_precondition)
                               (Raise Mock.unavailable)
                               (Raise Mock.unavailable)))
    "g" "t" (Mock.entry "B") (Mock.initial [])
  = (Return (Mock.entry "B"),
     {| world := tt; tag_objects := tag_objects (Mock.initial []);
        calls := [GetEntry "g/entries/t"];
        log := [{| level := WARNING;
                   message := "Entry was not updated: g/entries/t" |};
                {| level := WARNING;
                   message := "Error: 400 failed precondition" |}] |})
  /\ (upsert_entry
        (Mock.client (Mock.entries (Return (Mock.persisted_entry "A"))
                                   (Raise failed_precondition)
                                   (Raise Mock.unavailable)))
        "g" "t" (Mock.entry "B") (Mock.initial [])).1
     = Return (Mock.persisted_entry "A").
Proof.
  split.
  - exact (proj1 (upsert_entry_failed_precondition
                    (Mock.client (Mock.entries (Raise failed_precondition)
                                               (Raise Mock.unavailable)
                                               (Raise Mock.unavailable)))
                    "g" "t" (Mock.entry "B") (Mock.initial [])
                    failed_precondition eq_refl) tt eq_refl).
  - exact (f_equal fst
             (proj2 (upsert_entry_failed_precondition
                       (Mock.client
                          (Mock.entries (Return (Mock.persisted_entry "A"))
                                        (Raise failed_precondition)
                                        (Raise Mock.unavailable)))
                       "g" "t" (Mock.entry "B") (Mock.initial [])
                       failed_precondition eq_refl)
                    (Mock.persisted_entry "A") tt tt eq_refl eq_refl eq_refl)).
Defined.

Lemma delete_entry_never_raises_witness :
  delete_entry (Mock.client Mock.failing) "g/entries/t" (Mock.initial [])
  = (Return tt,
     {| world := tt; tag_objects := tag_objects (Mock.initial []);
        calls := [DeleteEntry "g/entries/t"];
        log := [{| level := INFO;
                   message := "An exception ocurred while attempting to delete Entry: g/entries/t" |};
                {| level := DEBUG; message := "503 unavailable" |}] |}).
Proof.
  exact (proj2 (delete_entry_never_raises (Mock.client Mock.failing)
                  "g/entries/t" (Mock.initial []))
               Mock.unavailable tt eq_refl).
Defined.

Lemma create_entry_on_failure_witness :
  create_entry
    (Mock.client (Mock.entries (Raise Mock.unavailable) (Raise Mock.unavailable)
                               (Raise permission_denied)))
    "g" "t" (Mock.entry "A") (Mock.initial [])
  = (Return (Mock.entry "A"),
     {| world := tt; tag_objects := tag_objects (Mock.initial []);
        calls := [CreateEntry "g" "t" (Mock.entry "A")];
        log := [{| level := INFO;
                   message := "Entry was not created: g/entries/t" |};
                {| level := WARNING;
                   message := "Error: 403 permission denied" |}] |})
  /\ (create_entry (Mock.client Mock.failing)
                   "g" "t" (Mock.entry "A") (Mock.initial [])).1
     = Raise Mock.unavailable.
Proof.
  split.
  - exact (proj1 (create_entry_on_failure
                    (Mock.client
                       (Mock.entries (Raise Mock.unavailable)
                                     (Raise Mock.unavailable)
                                     (Raise permission_denied)))
                    "g" "t" (Mock.entry "A") (Mock.initial [])
                    permission_denied tt eq_refl) eq_refl).
  - refine (f_equal fst
              (proj2 (create_entry_on_failure (Mock.client Mock.failing)
                        "g" "t" (Mock.entry "A") (Mock.initial [])
                        Mock.unavailable tt eq_refl) _)).
    simpl. discriminate.
Defined.

Definition sample_results : list SearchCatalogResult.t :=
  [{| SearchCatalogResult.search_result_subtype := "entry.table";
      SearchCatalogResult.relative_resource_name := "entryGroups/g/entries/t1";
      SearchCatalogResult.linked_resource := "//metastore/db/t1" |};
   {| SearchCatalogResult.search_result_subtype := "entry.table";
      SearchCatalogResult.relative_resource_name := "entryGroups/g/entries/t2";
      SearchCatalogResult.linked_resource := "//metastore/db/t2" |}].

Definition searchable : Mock.script :=
  {| Mock.on_create_entry := Raise Mock.unavailable;
     Mock.on_get_entry := Raise Mock.unavailable;
     Mock.on_update_entry := Raise Mock.unavailable;
     Mock.on_delete_entry := Raise Mock.unavailable;
     Mock.on_list_tags := Raise Mock.unavailable;
     Mock.on_create_tag := Raise Mock.unavailable;
     Mock.on_update_tag := Raise Mock.unavailable;
     Mock.on_search_catalog := Return sample_results |}.

Lemma search_catalog_request_witness :
  let r := search_catalog (Mock.client searchable) "my-project"
             "system=hive" (Mock.initial []) in
  let names := search_catalog_relative_resource_name
                 (Mock.client searchable) "my-project"
                 "system=hive" (Mock.initial []) in
  calls r.2
  = [SearchCatalog {| Scope.include_org_ids := [];
                      Scope.include_project_ids := ["my-project"];
                      Scope.include_gcp_public_datasets := false |}
                   "system=hive" "relevance" 1000]
  /\ r.1 = Return sample_results
  /\ names.1 = Return ["entryGroups/g/entries/t1"; "entryGroups/g/entries/t2"].
Proof.
  destruct (search_catalog_request (Mock.client searchable) "my-project"
              "system=hive" (Mock.initial [])) as (Hcalls & Hret & Hnames & _).
  split; [exact Hcalls|].
  split; [exact (f_equal fst (Hret sample_results tt eq_refl))|].
  exact Hnames.
Defined.

(** The entry carries two tags of the template of the input tag: one has
    exactly its field values, the other, on a column, has not.  An update
    request is issued all the same. *)
Lemma upsert_tags_updates_despite_equal_tag :
  let r := upsert_tags (Mock.client (Mock.tags [sample_tag_equal;
                                                sample_tag_other]))
             (Mock.persisted_entry "A") [0%nat] (Mock.initial [sample_tag]) in
  Tag.template sample_tag_equal = Tag.template sample_tag
  /\ Tag.fields sample_tag_equal = Tag.fields sample_tag
  /\ tags_fields_are_equal sample_tag sample_tag_equal = true
  /\ r.1 = Return tt
  /\ calls r.2
     = [ListTags (Entry.name (Mock.persisted_entry "A"));
        UpdateTag (Tag.set_name "entries/t/tags/2" sample_tag) None].
Proof. vm_compute. repeat split. Qed.

Lemma upsert_tags_requests_witness :
  let dc := Mock.client (Mock.tags [sample_tag_equal]) in
  let r := upsert_tags_body dc (Mock.persisted_entry "A") [sample_tag_equal]
             0%nat (Mock.initial [sample_tag]) in
  calls r.2 = []
  /\ upsert_tags dc (Mock.persisted_entry "A") [] (Mock.initial [sample_tag])
     = (Return tt, Mock.initial [sample_tag]).
Proof.
  destruct (upsert_tags_requests (Mock.client (Mock.tags [sample_tag_equal]))
              (Mock.persisted_entry "A")) as (_ & _ & Hequal & Hempty).
  split; [|exact (Hempty (Mock.initial [sample_tag]))].
  apply (Hequal [sample_tag_equal] 0%nat (Mock.initial [sample_tag])).
  - exists sample_tag_equal. split; [left; reflexivity | reflexivity].
  - intros p [<-|[]] _. vm_compute. reflexivity.
Defined.

(** The last persisted tag of the template has the field values of the
    input tag, an earlier one has not: the update request is issued, and it
    carries the name of the last. *)
Lemma upsert_tags_update_not_decided_by_last :
  let persisted_tags := [sample_tag_other; sample_tag_equal] in
  let r := upsert_tags (Mock.client (Mock.tags persisted_tags))
             (Mock.persisted_entry "A") [0%nat] (Mock.initial [sample_tag]) in
  last (List.filter (same_template sample_tag) persisted_tags)
    = Some sample_tag_equal
  /\ tags_fields_are_equal sample_tag sample_tag_equal = true
  /\ calls r.2
     = [ListTags (Entry.name (Mock.persisted_entry "A"));
        UpdateTag (Tag.set_name "entries/t/tags/1" sample_tag) None].
Proof. vm_compute. repeat split. Qed.

Lemma upsert_tags_overwrites_name_witness :
  let persisted_tags := [sample_tag_other; sample_tag_equal] in
  let dc := Mock.client (Mock.tags persisted_tags) in
  let r := upsert_tags dc (Mock.persisted_entry "A") [0%nat; 0%nat]
             (Mock.initial [sample_tag]) in
  tag_objects r.2 0%nat = Tag.set_name "entries/t/tags/1" sample_tag
  /\ tag_objects
       (upsert_tags_body dc (Mock.persisted_entry "A") [sample_tag_equal]
          0%nat (Mock.initial [sample_tag])).2 0%nat
     = Tag.set_name "entries/t/tags/1" sample_tag.
Proof.
  split.
  - refine (proj2 (upsert_tags_overwrites_name
                     (Mock.client (Mock.tags [sample_tag_other;
                                              sample_tag_equal]))
                     (Mock.persisted_entry "A")
                     [sample_tag_other; sample_tag_equal])
                  [0%nat; 0%nat] (Mock.initial [sample_tag]) tt eq_refl _
                  0%nat sample_tag_equal _ _).
    + vm_compute. reflexivity.
    + left. reflexivity.
    + vm_compute. reflexivity.
  - refine (proj1 (proj1 (upsert_tags_overwrites_name
                            (Mock.client (Mock.tags [sample_tag_other;
                                                     sample_tag_equal]))
                            (Mock.persisted_entry "A") [sample_tag_equal])
                         0%nat (Mock.initial [sample_tag]))
                  sample_tag_equal _).
    vm_compute. reflexivity.
Defined.

(** * Further properties of the facade *)

(** ** upsert_entry, create_entry, delete_entry: the remaining paths *)

Section EntryPaths.

Context {W : Type}.
Variable datacatalog : DataCatalogClient W.

(** X1.  When the fetched copy counts as changed and the update request
    succeeds, [upsert_entry] has issued the get request and one update
    request that carries the entry it was given (no update mask), and it
    returns the entry the service answered with. *)
Theorem upsert_entry_updates_when_changed
    (entry_group_name entry_id : string) (entry fetched updated : Entry.t)
    (s : State W) (w w' : W) :
  dc_get_entry datacatalog (entry_group_name +:+ "/entries/" +:+ entry_id)
               (world s) = (Return fetched, w) ->
  entry_was_updated fetched entry = true ->
  dc_update_entry datacatalog entry None w = (Return updated, w') ->
  let entry_name := entry_group_name +:+ "/entries/" +:+ entry_id in
  let r := upsert_entry datacatalog entry_group_name entry_id entry s in
  r.1 = Return updated
  /\ calls r.2 = calls s ++ [GetEntry entry_name; UpdateEntry entry None]
  /\ world r.2 = w'
  /\ log r.2 = log (log_entry_operation "updated" (Some updated) None
                     (log_entry_operation "already exists" None
                        (Some entry_name) s)).
Proof.
  intros Hget Hchanged Hupdate entry_name r. subst r.
  unfold upsert_entry, upsert_entry_try, get_entry. fold entry_name.
  rewrite (client_call_eq _ _ _ _ _ Hget), Hchanged.
  unfold update_entry, mbind, M_bind, bind.
  rewrite (client_call_eq (UpdateEntry entry None)
             (dc_update_entry datacatalog entry None) _ (Return updated) w')
    by (rewrite log_entry_operation_world; exact Hupdate).
  unfold logging, mret, M_ret, ret. cbn [fst snd].
  split; [reflexivity|]. split; [|split].
  - rewrite log_entry_operation_calls. cbn [calls set_world add_call].
    rewrite log_entry_operation_calls. cbn [calls set_world add_call].
    rewrite <- app_assoc. reflexivity.
  - rewrite log_entry_operation_world. reflexivity.
  - unfold log_entry_operation. reflexivity.
Qed.

(** X2.  The [except PermissionDenied] clause covers the update as well: when
    the entry exists and the update request is refused with
    PermissionDenied, the facade logs that the entry does not exist and
    goes on to issue a create request for it. *)
Theorem upsert_entry_update_denied_creates
    (entry_group_name entry_id : string) (entry fetched : Entry.t)
    (s : State W) (e : Exception) (w w' : W) :
  dc_get_entry datacatalog (entry_group_name +:+ "/entries/" +:+ entry_id)
               (world s) = (Return fetched, w) ->
  entry_was_updated fetched entry = true ->
  dc_update_entry datacatalog entry None w = (Raise e, w') ->
  exception_class e = PermissionDenied ->
  let entry_name := entry_group_name +:+ "/entries/" +:+ entry_id in
  let s1 := log_entry_operation "does not exist" None (Some entry_name)
              (set_world w'
                 (add_call (UpdateEntry entry None)
                    (log_entry_operation "already exists" None
                       (Some entry_name)
                       (set_world w (add_call (GetEntry entry_name) s))))) in
  upsert_entry datacatalog entry_group_name entry_id entry s
    = create_entry datacatalog entry_group_name entry_id entry s1
  /\ calls (upsert_entry datacatalog entry_group_name entry_id entry s).2
     = calls s ++ [GetEntry entry_name; UpdateEntry entry None;
                   CreateEntry entry_group_name entry_id entry].
Proof.
  intros Hget Hchanged Hupdate Hclass entry_name s1.
  assert (Heq : upsert_entry datacatalog entry_group_name entry_id entry s
                = create_entry datacatalog entry_group_name entry_id entry s1).
  { unfold upsert_entry, upsert_entry_try, get_entry. fold entry_name.
    rewrite (client_call_eq _ _ _ _ _ Hget), Hchanged.
    unfold update_entry. unfold mbind at 1, M_bind at 1, bind at 1.
    rewrite (client_call_eq (UpdateEntry entry None)
               (dc_update_entry datacatalog entry None) _ (Raise e) w')
      by (rewrite log_entry_operation_world; exact Hupdate).
    rewrite Hclass, bind_logging. apply bind_mret_r. }
  split; [exact Heq|]. rewrite Heq, create_entry_calls. subst s1.
  rewrite log_entry_operation_calls. cbn [calls set_world add_call].
  rewrite log_entry_operation_calls. cbn [calls set_world add_call].
  rewrite <- !app_assoc. reflexivity.
Qed.

(** X3.  A failure of the get or of the update request that is neither
    PermissionDenied nor FailedPrecondition reaches the caller of
    [upsert_entry] as it was raised: no further request, no warning. *)
Theorem upsert_entry_propagates_other_failures
    (entry_group_name entry_id : string) (entry : Entry.t)
    (s : State W) (e : Exception) :
  exception_class e <> PermissionDenied ->
  exception_class e <> FailedPrecondition ->
  let entry_name := entry_group_name +:+ "/entries/" +:+ entry_id in
  (forall w,
     dc_get_entry datacatalog entry_name (world s) = (Raise e, w) ->
     upsert_entry datacatalog entry_group_name entry_id entry s
     = (Raise e, set_world w (add_call (GetEntry entry_name) s)))
  /\ (forall fetched w w',
        dc_get_entry datacatalog entry_name (world s) = (Return fetched, w) ->
        entry_was_updated fetched entry = true ->
        dc_update_entry datacatalog entry None w = (Raise e, w') ->
        upsert_entry datacatalog entry_group_name entry_id entry s
        = (Raise e,
           set_world w'
             (add_call (UpdateEntry entry None)
                (log_entry_operation "already exists" None (Some entry_name)
                   (set_world w (add_call (GetEntry entry_name) s)))))).
Proof.
  intros Hpd Hfp entry_name. split.
  - intros w Hget.
    unfold upsert_entry, upsert_entry_try, get_entry. fold entry_name.
    rewrite (client_call_eq _ _ _ _ _ Hget).
    destruct (exception_class e); try contradiction; reflexivity.
  - intros fetched w w' Hget Hchanged Hupdate.
    unfold upsert_entry, upsert_entry_try, get_entry. fold entry_name.
    rewrite (client_call_eq _ _ _ _ _ Hget), Hchanged.
    unfold update_entry, mbind, M_bind, bind.
    rewrite (client_call_eq (UpdateEntry entry None)
               (dc_update_entry datacatalog entry None) _ (Raise e) w')
      by (rewrite log_entry_operation_world; exact Hupdate).
    destruct (exception_class e); try contradiction; reflexivity.
Qed.

(** X4.  The handlers of [upsert_entry] do not guard the create request made
    from within the PermissionDenied handler: a failure of that request of
    any class but PermissionDenied, FailedPrecondition included, reaches the
    caller. *)
Theorem upsert_entry_create_failure_propagates
    (entry_group_name entry_id : string) (entry : Entry.t)
    (s : State W) (e e' : Exception) (w w' : W) :
  dc_get_entry datacatalog (entry_group_name +:+ "/entries/" +:+ entry_id)
               (world s) = (Raise e, w) ->
  exception_class e = PermissionDenied ->
  dc_create_entry datacatalog entry_group_name entry_id entry w
    = (Raise e', w') ->
  exception_class e' <> PermissionDenied ->
  let entry_name := entry_group_name +:+ "/entries/" +:+ entry_id in
  let r := upsert_entry datacatalog entry_group_name entry_id entry s in
  r.1 = Raise e'
  /\ calls r.2 = calls s ++ [GetEntry entry_name;
                             CreateEntry entry_group_name entry_id entry]
  /\ world r.2 = w'.
Proof.
  intros Hget Hclass Hcreate Hclass' entry_name r. subst r.
  unfold upsert_entry, upsert_entry_try, get_entry. fold entry_name.
  rewrite (client_call_eq _ _ _ _ _ Hget), Hclass, bind_logging, bind_mret_r.
  unfold create_entry, try_except, mbind, M_bind, bind.
  rewrite (client_call_eq
             (CreateEntry entry_group_name entry_id entry)
             (dc_create_entry datacatalog entry_group_name entry_id entry)
             _ (Raise e') w')
    by (rewrite log_entry_operation_world; exact Hcreate).
  destruct (exception_class e'); try contradiction;
    (split; [reflexivity|]; split; [|reflexivity];
     cbn [snd calls set_world add_call];
     rewrite log_entry_operation_calls; cbn [calls set_world add_call];
     rewrite <- app_assoc; reflexivity).
Qed.

End EntryPaths.

(** ** upsert_entry as a whole *)

Section EntryOutcomes.

Context {W : Type}.
Variable datacatalog : DataCatalogClient W.

(** The except clauses of [upsert_entry] and its final [return], entered
    with the exception [e], the value of [persisted_entry] and the state at
    the point where [e] was raised. *)
Definition upsert_entry_except (entry_group_name entry_id : string)
    (entry : Entry.t) (e : Exception) (persisted_entry : Entry.t)
    (s : State W) : Result Entry.t * State W :=
  let entry_name := entry_group_name +:+ "/entries/" +:+ entry_id in
  match exception_class e with
  | PermissionDenied =>
      create_entry datacatalog entry_group_name entry_id entry
        (log_entry_operation "does not exist" None (Some entry_name) s)
  | FailedPrecondition =>
      (Return persisted_entry,
       logging_warning ("Error: " +:+ str e)
         (logging_warning ("Entry was not updated: " +:+ entry_name) s))
  | _ => (Raise e, s)
  end.

Lemma update_entry_by_outcome (entry : Entry.t) (s : State W) :
  update_entry datacatalog entry s
  = match dc_update_entry datacatalog entry None (world s) with
    | (Return updated, w) =>
        (Return updated,
         log_entry_operation "updated" (Some updated) None
           (set_world w (add_call (UpdateEntry entry None) s)))
    | (Raise e, w) =>
        (Raise e, set_world w (add_call (UpdateEntry entry None) s))
    end.
Proof.
  unfold update_entry, mbind, M_bind, bind, client_call.
  destruct (dc_update_entry datacatalog entry None (world s))
    as [[updated|e] w]; reflexivity.
Qed.

(** [upsert_entry] by the outcomes of the requests it makes. *)
Lemma upsert_entry_by_outcome (entry_group_name entry_id : string)
    (entry : Entry.t) (s : State W) :
  let entry_name := entry_group_name +:+ "/entries/" +:+ entry_id in
  let s0 := add_call (GetEntry entry_name) s in
  upsert_entry datacatalog entry_group_name entry_id entry s
  = match dc_get_entry datacatalog entry_name (world s) with
    | (Raise e, w) =>
        upsert_entry_except entry_group_name entry_id entry e entry
                            (set_world w s0)
    | (Return fetched, w) =>
        let s1 := log_entry_operation "already exists" None (Some entry_name)
                    (set_world w s0) in
        if entry_was_updated fetched entry then
          match dc_update_entry datacatalog entry None w with
          | (Return updated, w') =>
              (Return updated,
               log_entry_operation "updated" (Some updated) None
                 (set_world w' (add_call (UpdateEntry entry None) s1)))
          | (Raise e, w') =>
              upsert_entry_except entry_group_name entry_id entry e fetched
                (set_world w' (add_call (UpdateEntry entry None) s1))
          end
        else
          (Return fetched,
           log_entry_operation "is up-to-date" (Some fetched) None s1)
    end.
Proof.
  intros entry_name s0.
  unfold upsert_entry, upsert_entry_try, get_entry. fold entry_name.
  unfold client_call at 1.
  destruct (dc_get_entry datacatalog entry_name (world s))
    as [[fetched|e] w]; cbv zeta; fold s0.
  - destruct (entry_was_updated fetched entry); [|reflexivity].
    rewrite update_entry_by_outcome, log_entry_operation_world.
    cbn [world set_world].
    destruct (dc_update_entry datacatalog entry None w) as [[updated|e] w'].
    + reflexivity.
    + unfold upsert_entry_except. fold entry_name.
      destruct (exception_class e); try reflexivity.
      rewrite bind_logging. apply bind_mret_r.
  - unfold upsert_entry_except. fold entry_name.
    destruct (exception_class e); try reflexivity.
    rewrite bind_logging. apply bind_mret_r.
Qed.

Lemma create_entry_by_outcome (entry_group_name entry_id : string)
    (entry : Entry.t) (s : State W) :
  let s1 := add_call (CreateEntry entry_group_name entry_id entry) s in
  create_entry datacatalog entry_group_name entry_id entry s
  = match dc_create_entry datacatalog entry_group_name entry_id entry
            (world s) with
    | (Return created, w) =>
        (Return created,
         log_entry_operation "created" (Some created) None (set_world w s1))
    | (Raise e, w) =>
        match exception_class e with
        | PermissionDenied =>
            (Return entry,
             logging_warning ("Error: " +:+ str e)
               (log_entry_operation "was not created" None
                  (Some (entry_group_name +:+ "/entries/" +:+ entry_id))
                  (set_world w s1)))
        | _ => (Raise e, set_world w s1)
        end
    end.
Proof.
  unfold create_entry, try_except, mbind, M_bind, bind, client_call.
  destruct (dc_create_entry datacatalog entry_group_name entry_id entry
              (world s)) as [[created|e] w]; [reflexivity|].
  destruct (exception_class e); reflexivity.
Qed.

Lemma create_entry_not_denied (entry_group_name entry_id : string)
    (entry : Entry.t) (s : State W) (e : Exception) :
  (create_entry datacatalog entry_group_name entry_id entry s).1 = Raise e ->
  exception_class e <> PermissionDenied.
Proof.
  rewrite create_entry_by_outcome.
  destruct (dc_create_entry datacatalog entry_group_name entry_id entry
              (world s)) as [[created|e0] w]; [discriminate|].
  destruct (exception_class e0) eqn:Hclass; cbn [fst];
    intros [= <-]; rewrite Hclass; discriminate.
Qed.

Lemma upsert_entry_except_calls (entry_group_name entry_id : string)
    (entry : Entry.t) (e : Exception) (persisted_entry : Entry.t)
    (s : State W) :
  calls (upsert_entry_except entry_group_name entry_id entry e
           persisted_entry s).2
  = calls s ++ match exception_class e with
               | PermissionDenied =>
                   [CreateEntry entry_group_name entry_id entry]
               | _ => []
               end.
Proof.
  unfold upsert_entry_except.
  destruct (exception_class e); cbn [snd]; rewrite ?app_nil_r;
    try reflexivity.
  rewrite create_entry_calls, log_entry_operation_calls. reflexivity.
Qed.

(** X5.  Neither [create_entry] nor [upsert_entry] lets a PermissionDenied
    through: whatever the client does, an exception that reaches their
    caller is of another class. *)
Theorem permission_denied_never_propagates
    (entry_group_name entry_id : string) (entry : Entry.t) (s : State W)
    (e : Exception) :
  ((create_entry datacatalog entry_group_name entry_id entry s).1 = Raise e ->
   exception_class e <> PermissionDenied)
  /\ ((upsert_entry datacatalog entry_group_name entry_id entry s).1 = Raise e ->
      exception_class e <> PermissionDenied).
Proof.
  split; [apply create_entry_not_denied|].
  rewrite upsert_entry_by_outcome. cbv zeta.
  assert (Hexcept : forall e0 persisted_entry s',
    (upsert_entry_except entry_group_name entry_id entry e0
       persisted_entry s').1 = Raise e ->
    exception_class e <> PermissionDenied).
  { intros e0 persisted_entry s'. unfold upsert_entry_except.
    destruct (exception_class e0) eqn:Hclass; cbn [fst];
      try (intros [= <-]; rewrite Hclass; discriminate).
    apply create_entry_not_denied. }
  destruct (dc_get_entry datacatalog _ (world s)) as [[fetched|e0] w];
    [|apply Hexcept].
  destruct (entry_was_updated fetched entry); [|discriminate].
  destruct (dc_update_entry datacatalog entry None w) as [[updated|e1] w'];
    [discriminate | apply Hexcept].
Qed.

(** X6.  The requests of [upsert_entry], in every case: the get request
    first, then at most one update and at most one create, in that order,
    each carrying the entry [upsert_entry] was given; never a delete, never
    a second get. *)
Theorem upsert_entry_call_shape
    (entry_group_name entry_id : string) (entry : Entry.t) (s : State W) :
  exists l,
    calls (upsert_entry datacatalog entry_group_name entry_id entry s).2
    = calls s ++ GetEntry (entry_group_name +:+ "/entries/" +:+ entry_id) :: l
    /\ (l = []
        \/ l = [UpdateEntry entry None]
        \/ l = [CreateEntry entry_group_name entry_id entry]
        \/ l = [UpdateEntry entry None;
                CreateEntry entry_group_name entry_id entry]).
Proof.
  rewrite upsert_entry_by_outcome. cbv zeta.
  destruct (dc_get_entry datacatalog _ (world s)) as [[fetched|e0] w].
  - destruct (entry_was_updated fetched entry).
    + destruct (dc_update_entry datacatalog entry None w)
        as [[updated|e1] w'].
      * exists [UpdateEntry entry None]. cbn [snd].
        rewrite log_entry_operation_calls. cbn [calls set_world add_call].
        rewrite log_entry_operation_calls. cbn [calls set_world add_call].
        rewrite <- app_assoc. auto.
      * rewrite upsert_entry_except_calls. cbn [calls set_world add_call].
        rewrite log_entry_operation_calls. cbn [calls set_world add_call].
        rewrite <- !app_assoc. cbn [app].
        destruct (exception_class e1); eexists; (split; [reflexivity|]);
          auto.
    + exists []. cbn [snd]. rewrite !log_entry_operation_calls.
      cbn [calls set_world add_call]. auto.
  - rewrite upsert_entry_except_calls. cbn [calls set_world add_call].
    rewrite <- !app_assoc. cbn [app].
    destruct (exception_class e0); eexists; (split; [reflexivity|]); auto.
Qed.

(** X7.  Once [get_entry] has returned the persisted copy, an update request
    is issued exactly when the change detection answers "changed"; when it
    does not, the get request is the only request and the fetched copy is
    returned. *)
Theorem upsert_entry_update_iff_changed
    (entry_group_name entry_id : string) (entry fetched : Entry.t)
    (s : State W) (w : W) :
  dc_get_entry datacatalog (entry_group_name +:+ "/entries/" +:+ entry_id)
               (world s) = (Return fetched, w) ->
  let entry_name := entry_group_name +:+ "/entries/" +:+ entry_id in
  let r := upsert_entry datacatalog entry_group_name entry_id entry s in
  (In (UpdateEntry entry None) (drop (length (calls s)) (calls r.2))
   <-> entry_was_updated fetched entry = true)
  /\ (entry_was_updated fetched entry = false ->
      r.1 = Return fetched /\ calls r.2 = calls s ++ [GetEntry entry_name]).
Proof.
  intros Hget entry_name r. subst r entry_name.
  rewrite upsert_entry_by_outcome. cbv zeta. rewrite Hget.
  destruct (entry_was_updated fetched entry).
  - split; [|discriminate]. split; [reflexivity|]. intros _.
    destruct (dc_update_entry datacatalog entry None w) as [[updated|e] w'].
    + cbn [snd]. rewrite log_entry_operation_calls.
      cbn [calls set_world add_call]. rewrite log_entry_operation_calls.
      cbn [calls set_world add_call].
      rewrite <- app_assoc, drop_app_length. right. left. reflexivity.
    + rewrite upsert_entry_except_calls. cbn [calls set_world add_call].
      rewrite log_entry_operation_calls. cbn [calls set_world add_call].
      rewrite <- !app_assoc, drop_app_length. right. left. reflexivity.
  - cbn [fst snd]. rewrite !log_entry_operation_calls.
    cbn [calls set_world add_call]. rewrite drop_app_length.
    split; [|auto]. split; [|discriminate].
    intros [H|[]]. discriminate.
Qed.

End EntryOutcomes.

(** ** Single requests and the log *)

Lemma string_length_app (a b : string) :
  String.length (a +:+ b) = (String.length a + String.length b)%nat.
Proof.
  induction a as [|c a IH]; [reflexivity|].
  change (S (String.length (a +:+ b))
          = S (String.length a + String.length b)).
  rewrite IH. reflexivity.
Qed.

Lemma string_length_spaces (n : nat) : String.length (spaces n) = n.
Proof.
  induction n as [|n IH]; [reflexivity|].
  change (S (String.length (spaces n)) = S n).
  rewrite IH. reflexivity.
Qed.

Section SingleRequests.

Context {W : Type}.
Variable datacatalog : DataCatalogClient W.

(** X8.  [create_entry] issues one create request and nothing else, whatever
    the outcome; when the request succeeds it returns the entry the service
    answered with, and it is that entry the log names. *)
Theorem create_entry_request
    (entry_group_name entry_id : string) (entry : Entry.t) (s : State W) :
  calls (create_entry datacatalog entry_group_name entry_id entry s).2
    = calls s ++ [CreateEntry entry_group_name entry_id entry]
  /\ (forall created w,
        dc_create_entry datacatalog entry_group_name entry_id entry (world s)
          = (Return created, w) ->
        create_entry datacatalog entry_group_name entry_id entry s
        = (Return created,
           log_entry_operation "created" (Some created) None
             (set_world w
                (add_call (CreateEntry entry_group_name entry_id entry) s)))).
Proof.
  split; [apply create_entry_calls|].
  intros created w Hcreate.
  rewrite create_entry_by_outcome, Hcreate. reflexivity.
Qed.

(** X9.  [delete_entry] issues one delete request and nothing else, whatever
    the outcome; when the request succeeds the log has the single record
    that the entry was deleted. *)
Theorem delete_entry_request (name : string) (s : State W) :
  calls (delete_entry datacatalog name s).2 = calls s ++ [DeleteEntry name]
  /\ (forall w,
        dc_delete_entry datacatalog name (world s) = (Return tt, w) ->
        delete_entry datacatalog name s
        = (Return tt,
           logging_info ("Entry deleted: " +:+ name)
             (set_world w (add_call (DeleteEntry name) s)))).
Proof.
  unfold delete_entry, try_except, mbind, M_bind, bind, client_call.
  destruct (dc_delete_entry datacatalog name (world s)) as [[[]|e] w].
  - split; [reflexivity|]. intros w' [= <-]. reflexivity.
  - split; [reflexivity|]. intros w' [=].
Qed.

(** X10.  The records of [__log_entry_operation].  Given an entry, it logs
    two info records: the description followed by the name of the entry
    (an [entry_name] passed as well is not used), and a second line whose
    caret stands in the column where that name begins.  Given no entry, it
    logs the one record, with [entry_name]. *)
Theorem log_entry_operation_records
    (description : string) (entry_name : option string) (s : State W) :
  (forall entry,
     exists pad,
       log (log_entry_operation description (Some entry) entry_name s)
       = log s ++
         [{| level := INFO;
             message := ("Entry " +:+ description +:+ ": ")
                        +:+ Entry.name entry |};
          {| level := INFO;
             message := pad +:+ "^ [" +:+ Entry.user_specified_type entry
                        +:+ "] " +:+ Entry.linked_resource entry |}]
       /\ String.length pad
          = String.length ("Entry " +:+ description +:+ ": ")
       /\ String.length pad = (8 + String.length description)%nat
       /\ pad = spaces (String.length pad))
  /\ log (log_entry_operation description None entry_name s)
     = log s ++
       [{| level := INFO;
           message := ("Entry " +:+ description +:+ ": ")
                      +:+ str_of_optional entry_name |}].
Proof.
  split; [|reflexivity].
  intros entry.
  exists (spaces (String.length ("Entry " +:+ description +:+ ": "))).
  rewrite !string_length_spaces. split; [|split; [reflexivity|split]].
  - unfold log_entry_operation, logging_info. cbn [log add_log].
    rewrite <- app_assoc. reflexivity.
  - rewrite !string_length_app. simpl. lia.
  - reflexivity.
Qed.

End SingleRequests.

(** ** Change detection and tag equality as relations *)

(** X11.  An entry never counts as changed against itself, and more
    generally against a copy that differs only in members the detection
    does not read (the resource name, the create and expire times, the
    nanoseconds). *)
Theorem entry_was_updated_irreflexive (current_entry new_entry : Entry.t) :
  compared_fields current_entry = compared_fields new_entry ->
  seconds (update_time (Entry.source_system_timestamps current_entry))
  = seconds (update_time (Entry.source_system_timestamps new_entry)) ->
  entry_was_updated current_entry new_entry = false.
Proof.
  intros Hfields Hsame.
  apply entry_was_updated_unchanged; [exact Hfields | right; exact Hsame].
Qed.

(** The predicate is decided by the fields of its two arguments. *)
Lemma tags_fields_are_equal_fields (tag_1 tag_1' tag_2 tag_2' : Tag.t) :
  Tag.fields tag_1' = Tag.fields tag_1 ->
  Tag.fields tag_2' = Tag.fields tag_2 ->
  tags_fields_are_equal tag_1' tag_2' = tags_fields_are_equal tag_1 tag_2.
Proof.
  intros H1 H2. unfold tags_fields_are_equal. rewrite H1.
  induction (map fst (map_to_list (Tag.fields tag_1))) as [|field_id rest IH];
    simpl; [reflexivity|].
  rewrite IH, H1, H2. reflexivity.
Qed.

(** X12.  [__tags_fields_are_equal] holds of a tag and itself exactly when
    none of its doubles is a NaN. *)
Theorem tags_fields_are_equal_reflexive_iff (tag : Tag.t) :
  tags_fields_are_equal tag tag = true
  <-> (forall field_id field,
         Tag.fields tag !! field_id = Some field ->
         PrimFloat.eqb (TagField.double_value field)
                       (TagField.double_value field) = true).
Proof.
  split.
  - intros H field_id field Hlookup.
    pose proof (proj1 (tags_fields_are_equal_spec tag tag) H
                  field_id field Hlookup) as Heq.
    unfold fields_getitem in Heq. rewrite Hlookup in Heq. simpl in Heq.
    unfold tag_field_values_are_equal in Heq.
    rewrite !andb_true_iff in Heq. tauto.
  - intros H. apply tags_fields_are_equal_same_fields; [reflexivity | exact H].
Qed.

(** X13.  Fields that only the second tag has are not seen: when every
    field of the first tag is found unchanged on the second, and none of its
    doubles is a NaN, the tags are equal for the predicate, whatever else
    the second tag carries. *)
Theorem tags_fields_are_equal_submap (tag_1 tag_2 : Tag.t) :
  Tag.fields tag_1 ⊆ Tag.fields tag_2 ->
  (forall field_id field,
     Tag.fields tag_1 !! field_id = Some field ->
     PrimFloat.eqb (TagField.double_value field)
                   (TagField.double_value field) = true) ->
  tags_fields_are_equal tag_1 tag_2 = true.
Proof.
  intros Hsub Hnan. apply tags_fields_are_equal_spec.
  intros field_id field Hlookup.
  unfold fields_getitem.
  rewrite (lookup_weaken _ _ _ _ Hlookup Hsub). simpl.
  unfold tag_field_values_are_equal.
  rewrite Bool.eqb_reflx, !String.eqb_refl, Z.eqb_refl,
    (Hnan field_id field Hlookup).
  reflexivity.
Qed.

(** X14.  Against a tag without fields, the predicate holds exactly when
    every field of the first tag reads as the defaults: false, zero, the
    empty string, zero seconds, the empty enum name.  A first tag without
    fields is equal to every tag. *)
Theorem tags_fields_are_equal_no_fields (tag_1 tag_2 : Tag.t) :
  (Tag.fields tag_2 = ∅ ->
   (tags_fields_are_equal tag_1 tag_2 = true
    <-> (forall field_id field,
           Tag.fields tag_1 !! field_id = Some field ->
           TagField.bool_value field = false
           /\ PrimFloat.eqb (TagField.double_value field) 0%float = true
           /\ TagField.string_value field = ""
           /\ seconds (TagField.timestamp_value field) = 0
           /\ TagField.enum_value_display_name field = "")))
  /\ (Tag.fields tag_1 = ∅ -> tags_fields_are_equal tag_1 tag_2 = true).
Proof.
  split.
  - intros Hempty. rewrite tags_fields_are_equal_spec.
    split; intros H field_id field Hlookup;
      specialize (H field_id field Hlookup);
      unfold fields_getitem in *; rewrite Hempty, lookup_empty in *;
      unfold tag_field_values_are_equal, TagField.default in *;
      cbn [TagField.bool_value TagField.double_value TagField.string_value
           TagField.timestamp_value TagField.enum_value_display_name
           TagField.value default seconds Timestamp_default] in *.
    + rewrite !andb_true_iff in H. destruct H as [[[[H1 H2] H3] H4] H5].
      apply Bool.eqb_prop in H1. apply String.eqb_eq in H3, H5.
      apply Z.eqb_eq in H4. auto.
    + destruct H as (H1 & H2 & H3 & H4 & H5).
      rewrite H1, H2, H3, H4, H5. reflexivity.
  - intros Hempty. apply tags_fields_are_equal_spec.
    intros field_id field Hlookup.
    rewrite Hempty, lookup_empty in Hlookup. discriminate.
Qed.

(** ** upsert_tags as a whole *)

Lemma existsb_same_template_congr (tag tag' : Tag.t)
    (persisted_tags : list Tag.t) :
  Tag.template tag' = Tag.template tag ->
  existsb (same_template tag') persisted_tags
  = existsb (same_template tag) persisted_tags.
Proof.
  intros H. unfold same_template. rewrite H. reflexivity.
Qed.

Lemma existsb_differs_from_congr (tag tag' : Tag.t)
    (persisted_tags : list Tag.t) :
  Tag.template tag' = Tag.template tag ->
  Tag.fields tag' = Tag.fields tag ->
  existsb (differs_from tag') persisted_tags
  = existsb (differs_from tag) persisted_tags.
Proof.
  intros Htpl Hfields.
  induction persisted_tags as [|p rest IH]; [reflexivity|].
  cbn [existsb]. rewrite IH. unfold differs_from, same_template.
  rewrite Htpl, (tags_fields_are_equal_fields tag tag' p p Hfields eq_refl).
  reflexivity.
Qed.

(** A second pass over an object asks for what the first asked for. *)
Lemma requests_for_scan_object (entry : Entry.t) (persisted_tags : list Tag.t)
    (tag : Tag.t) :
  requests_for entry persisted_tags (scan_object tag persisted_tags)
  = requests_for entry persisted_tags tag.
Proof.
  destruct (scan_object_template tag persisted_tags) as (Htpl & Hfields & _).
  unfold requests_for.
  rewrite (existsb_same_template_congr _ _ _ Htpl),
    (existsb_differs_from_congr _ _ _ Htpl Hfields), scan_object_idempotent.
  destruct (existsb (same_template tag) persisted_tags) eqn:Hm; [reflexivity|].
  rewrite (scan_object_no_match _ _ Hm). reflexivity.
Qed.

Section TagOutcomes.

Context {W : Type}.
Variable datacatalog : DataCatalogClient W.

Lemma for_each_upsert_tags_body_trace (entry : Entry.t)
    (persisted_tags : list Tag.t) (tags : list TagRef) (s : State W) :
  (for_each tags (upsert_tags_body datacatalog entry persisted_tags) s).1
    = Return tt ->
  calls (for_each tags (upsert_tags_body datacatalog entry persisted_tags) s).2
  = calls s
    ++ flat_map (fun r => requests_for entry persisted_tags (tag_objects s r))
                tags.
Proof.
  revert s. induction tags as [|tag rest IH]; intros s Hret.
  - simpl. rewrite app_nil_r. reflexivity.
  - cbn [for_each flat_map] in *. unfold mbind, M_bind, bind in *.
    destruct (upsert_tags_body_spec datacatalog entry persisted_tags tag s)
      as [Hcalls Hobj].
    destruct (upsert_tags_body datacatalog entry persisted_tags tag s)
      as [[[]|e] s1]; cbn [snd] in Hcalls, Hobj; [|discriminate].
    rewrite (IH s1 Hret), Hcalls, <- app_assoc. f_equal. f_equal.
    apply flat_map_ext. intros r. rewrite Hobj.
    destruct (Nat.eqb_spec r tag) as [->|]; [|reflexivity].
    apply requests_for_scan_object.
Qed.

(** Whatever its outcome, the loop leaves each object as it was or as one
    pass leaves it. *)
Lemma for_each_upsert_tags_body_store (entry : Entry.t)
    (persisted_tags : list Tag.t) (tags : list TagRef) (s : State W)
    (r : TagRef) :
  let s' := (for_each tags
               (upsert_tags_body datacatalog entry persisted_tags) s).2 in
  tag_objects s' r = tag_objects s r
  \/ (In r tags
      /\ tag_objects s' r = scan_object (tag_objects s r) persisted_tags).
Proof.
  cbv zeta. revert s. induction tags as [|tag rest IH]; intros s.
  - left. reflexivity.
  - cbn [for_each]. unfold mbind, M_bind, bind.
    destruct (upsert_tags_body_spec datacatalog entry persisted_tags tag s)
      as [_ Hobj].
    destruct (upsert_tags_body datacatalog entry persisted_tags tag s)
      as [[[]|e] s1]; cbn [snd] in Hobj |- *.
    + destruct (IH s1) as [Hsame|[Hin Hscan]].
      * rewrite Hsame, Hobj.
        destruct (Nat.eqb_spec r tag) as [->|]; [right|left; reflexivity].
        split; [left; reflexivity | reflexivity].
      * right. split; [right; exact Hin|]. rewrite Hscan, Hobj.
        destruct (Nat.eqb_spec r tag) as [->|]; [|reflexivity].
        apply scan_object_idempotent.
    + rewrite Hobj.
      destruct (Nat.eqb_spec r tag) as [->|]; [right|left; reflexivity].
      split; [left; reflexivity | reflexivity].
Qed.

(** X15.  The requests of a run of [upsert_tags] that returns normally, read
    off the input as it was on entry: the list request, then, for each
    input tag in order, a create request if no persisted tag has its
    template, an update request if one of that template differs, and
    nothing otherwise.  The persisted tags are those listed at the start:
    an object that occurs twice in the input is asked for twice. *)
Theorem upsert_tags_trace (entry : Entry.t) (persisted_tags : list Tag.t)
    (tag : TagRef) (rest : list TagRef) (s : State W) (w : W) :
  dc_list_tags datacatalog (Entry.name entry) (world s)
    = (Return persisted_tags, w) ->
  (upsert_tags datacatalog entry (tag :: rest) s).1 = Return tt ->
  calls (upsert_tags datacatalog entry (tag :: rest) s).2
  = calls s
    ++ ListTags (Entry.name entry)
       :: flat_map
            (fun r => requests_for entry persisted_tags (tag_objects s r))
            (tag :: rest).
Proof.
  intros Hlist Hret.
  unfold upsert_tags, list_tags, mbind, M_bind, bind in *.
  rewrite (client_call_eq _ _ _ _ _ Hlist) in *.
  rewrite (for_each_upsert_tags_body_trace _ _ _ _ Hret).
  cbn [calls set_world add_call tag_objects]. rewrite <- app_assoc.
  reflexivity.
Qed.

(** X16.  Whatever the client does and however [upsert_tags] ends, it
    changes nothing in the Tag objects but the name of objects of its input
    list: template, fields and column of every object stay, and an object
    that is not in the list stays as a whole. *)
Theorem upsert_tags_frame (entry : Entry.t) (tags : list TagRef)
    (s : State W) (r : TagRef) :
  let s' := (upsert_tags datacatalog entry tags s).2 in
  Tag.template (tag_objects s' r) = Tag.template (tag_objects s r)
  /\ Tag.fields (tag_objects s' r) = Tag.fields (tag_objects s r)
  /\ Tag.column (tag_objects s' r) = Tag.column (tag_objects s r)
  /\ (~ In r tags -> tag_objects s' r = tag_objects s r).
Proof.
  cbv zeta.
  assert (H : tag_objects (upsert_tags datacatalog entry tags s).2 r
              = tag_objects s r
              \/ exists persisted_tags,
                   In r tags
                   /\ tag_objects (upsert_tags datacatalog entry tags s).2 r
                      = scan_object (tag_objects s r) persisted_tags).
  { destruct tags as [|tag rest]; [left; reflexivity|].
    unfold upsert_tags, list_tags, mbind, M_bind, bind, client_call.
    destruct (dc_list_tags datacatalog (Entry.name entry) (world s))
      as [[persisted_tags|e] w]; [|left; reflexivity].
    destruct (for_each_upsert_tags_body_store entry persisted_tags
                (tag :: rest)
                (set_world w (add_call (ListTags (Entry.name entry)) s)) r)
      as [Hsame|[Hin Hscan]].
    - left. exact Hsame.
    - right. exists persisted_tags. split; [exact Hin | exact Hscan]. }
  destruct H as [->|(persisted_tags & Hin & ->)].
  - repeat split.
  - destruct (scan_object_template (tag_objects s r) persisted_tags)
      as (H1 & H2 & H3).
    repeat split; try assumption. intros Hnot. contradiction.
Qed.

(** X17.  When the list request fails, [upsert_tags] stops there: the
    exception reaches the caller, no other request is made, nothing is
    logged and no object is touched. *)
Theorem upsert_tags_list_failure (entry : Entry.t) (tag : TagRef)
    (rest : list TagRef) (s : State W) (e : Exception) (w : W) :
  dc_list_tags datacatalog (Entry.name entry) (world s) = (Raise e, w) ->
  upsert_tags datacatalog entry (tag :: rest) s
  = (Raise e, set_world w (add_call (ListTags (Entry.name entry)) s)).
Proof.
  intros Hlist. unfold upsert_tags, list_tags, mbind, M_bind, bind.
  rewrite (client_call_eq _ _ _ _ _ Hlist). reflexivity.
Qed.

End TagOutcomes.

(** ** One pass of upsert_tags, by case *)

Lemma no_same_template (tag : Tag.t) (persisted_tags : list Tag.t) :
  (forall p, In p persisted_tags -> Tag.template p <> Tag.template tag) ->
  existsb (same_template tag) persisted_tags = false.
Proof.
  intros Hnone. apply not_true_iff_false.
  intros (p & Hin & Htpl)%existsb_same_template.
  exact (Hnone p Hin Htpl).
Qed.

Lemma last_filter_same_template (tag p : Tag.t) (persisted_tags : list Tag.t) :
  last (List.filter (same_template tag) persisted_tags) = Some p ->
  existsb (same_template tag) persisted_tags = true.
Proof.
  intros Hlast. apply existsb_exists. exists p.
  apply last_Some_elem_of, list_elem_of_In, filter_In in Hlast. exact Hlast.
Qed.

(** When no persisted tag has the template of the object, the inner loop
    leaves the state as it found it. *)
Lemma upsert_tags_scan_no_match {W} (tag : TagRef) (persisted_tags : list Tag.t)
    (tag_to_create tag_to_update : option TagRef) (s : State W) :
  existsb (same_template (tag_objects s tag)) persisted_tags = false ->
  upsert_tags_scan tag persisted_tags tag_to_create tag_to_update s
  = (Return (tag_to_create, tag_to_update), s).
Proof.
  induction persisted_tags as [|p rest IH]; [reflexivity|].
  cbn [existsb]. intros [Hp Hrest]%orb_false_iff.
  rewrite upsert_tags_scan_cons, Hp. exact (IH Hrest).
Qed.

Section TagPasses.

Context {W : Type}.
Variable datacatalog : DataCatalogClient W.

Lemma upsert_tags_body_no_match (entry : Entry.t) (persisted_tags : list Tag.t)
    (tag : TagRef) (s : State W) :
  existsb (same_template (tag_objects s tag)) persisted_tags = false ->
  let t := tag_objects s tag in
  let s0 := logging_info
              ("Processing Tag from Template: " +:+ Tag.template t +:+ " ...")
              s in
  upsert_tags_body datacatalog entry persisted_tags tag s
  = match dc_create_tag datacatalog (Entry.name entry) t (world s) with
    | (Return created_tag, w) =>
        (Return tt,
         logging_info ("Tag created: " +:+ Tag.name created_tag)
           (set_world w (add_call (CreateTag (Entry.name entry) t) s0)))
    | (Raise e, w) =>
        (Raise e, set_world w (add_call (CreateTag (Entry.name entry) t) s0))
    end.
Proof.
  intros Hnone t s0.
  unfold upsert_tags_body.
  unfold mbind at 1, M_bind at 1, bind at 1, read_tag at 1.
  rewrite bind_logging. fold t. fold s0.
  unfold mbind at 1, M_bind at 1, bind at 1.
  rewrite (upsert_tags_scan_no_match tag persisted_tags (Some tag) None s0)
    by exact Hnone.
  unfold create_tag, mbind, M_bind, bind, read_tag, client_call, logging.
  change (tag_objects s0 tag) with t. change (world s0) with (world s).
  destruct (dc_create_tag datacatalog (Entry.name entry) t (world s))
    as [[created_tag|e] w]; reflexivity.
Qed.

(** X18.  A pass for an input tag whose template no persisted tag has:
    one create request, under the name of the entry, carrying the object as
    it is; the object is not written to, and when the request succeeds the
    log names the tag the service answered with. *)
Theorem upsert_tags_body_creates (entry : Entry.t)
    (persisted_tags : list Tag.t) (tag : TagRef) (s : State W) :
  (forall p, In p persisted_tags ->
             Tag.template p <> Tag.template (tag_objects s tag)) ->
  let t := tag_objects s tag in
  let r := upsert_tags_body datacatalog entry persisted_tags tag s in
  calls r.2 = calls s ++ [CreateTag (Entry.name entry) t]
  /\ tag_objects r.2 = tag_objects s
  /\ (forall created_tag w,
        dc_create_tag datacatalog (Entry.name entry) t (world s)
          = (Return created_tag, w) ->
        r.1 = Return tt
        /\ log r.2
           = log s
             ++ [{| level := INFO;
                    message := "Processing Tag from Template: "
                               +:+ Tag.template t +:+ " ..." |};
                 {| level := INFO;
                    message := "Tag created: " +:+ Tag.name created_tag |}]).
Proof.
  intros Hnone t r. subst r.
  rewrite (upsert_tags_body_no_match entry persisted_tags tag s
             (no_same_template _ _ Hnone)).
  fold t.
  destruct (dc_create_tag datacatalog (Entry.name entry) t (world s))
    as [[created_tag|e] w].
  - split; [reflexivity|]. split; [reflexivity|].
    intros created_tag' w' [= <- <-]. split; [reflexivity|].
    cbn [snd log logging_info add_log set_world add_call].
    rewrite <- app_assoc. reflexivity.
  - split; [reflexivity|]. split; [reflexivity|]. intros ? ? [=].
Qed.

(** X19.  A pass for an input tag when persisted tags of its template exist
    and one of them differs: one update request, without update mask,
    carrying the template, fields and column of the input tag under the
    name of the last persisted tag of that template. *)
Theorem upsert_tags_body_updates (entry : Entry.t)
    (persisted_tags : list Tag.t) (tag : TagRef) (s : State W) (p : Tag.t) :
  last (List.filter (same_template (tag_objects s tag)) persisted_tags)
    = Some p ->
  (exists q, In q persisted_tags
             /\ Tag.template q = Tag.template (tag_objects s tag)
             /\ tags_fields_are_equal (tag_objects s tag) q = false) ->
  let t := tag_objects s tag in
  calls (upsert_tags_body datacatalog entry persisted_tags tag s).2
  = calls s
    ++ [UpdateTag {| Tag.name := Tag.name p; Tag.template := Tag.template t;
                     Tag.fields := Tag.fields t; Tag.column := Tag.column t |}
                  None].
Proof.
  intros Hlast Hdiff t.
  destruct (upsert_tags_body_spec datacatalog entry persisted_tags tag s)
    as [Hcalls _].
  rewrite Hcalls. unfold requests_for.
  rewrite (last_filter_same_template _ _ _ Hlast).
  apply existsb_differs_from in Hdiff. rewrite Hdiff.
  rewrite scan_object_last, Hlast. reflexivity.
Qed.

(** X20.  A create request that fails ends [upsert_tags]: the exception
    reaches the caller and the input tags after the failing one are not
    looked at (no request for them, no write to them). *)
Theorem upsert_tags_stops_at_failed_create (entry : Entry.t)
    (persisted_tags : list Tag.t) (tag : TagRef) (rest : list TagRef)
    (s : State W) (e : Exception) (w w' : W) :
  dc_list_tags datacatalog (Entry.name entry) (world s)
    = (Return persisted_tags, w) ->
  (forall p, In p persisted_tags ->
             Tag.template p <> Tag.template (tag_objects s tag)) ->
  dc_create_tag datacatalog (Entry.name entry) (tag_objects s tag) w
    = (Raise e, w') ->
  let r := upsert_tags datacatalog entry (tag :: rest) s in
  r.1 = Raise e
  /\ calls r.2 = calls s ++ [ListTags (Entry.name entry);
                             CreateTag (Entry.name entry) (tag_objects s tag)]
  /\ world r.2 = w'
  /\ tag_objects r.2 = tag_objects s.
Proof.
  intros Hlist Hnone Hcreate r. subst r.
  assert (Heq : upsert_tags datacatalog entry (tag :: rest) s
    = (Raise e,
       set_world w'
         (add_call (CreateTag (Entry.name entry) (tag_objects s tag))
            (logging_info
               ("Processing Tag from Template: "
                +:+ Tag.template (tag_objects s tag) +:+ " ...")
               (set_world w (add_call (ListTags (Entry.name entry)) s)))))).
  { unfold upsert_tags, list_tags. unfold mbind at 1, M_bind at 1, bind at 1.
    rewrite (client_call_eq _ _ _ _ _ Hlist).
    cbn [for_each]. unfold mbind at 1, M_bind at 1, bind at 1.
    rewrite upsert_tags_body_no_match
      by (apply no_same_template; exact Hnone).
    cbn [world set_world add_call tag_objects]. rewrite Hcreate.
    reflexivity. }
  rewrite Heq. split; [reflexivity|]. split; [|split; reflexivity].
  unfold logging_info.
  cbn [snd calls set_world add_call add_log].
  rewrite <- app_assoc. reflexivity.
Qed.

(** X21.  A failure of the search request reaches the caller of
    [search_catalog] and of [search_catalog_relative_resource_name] as it
    was raised, after the one request. *)
Theorem search_catalog_failure (project_id query : string) (s : State W)
    (e : Exception) (w : W) :
  dc_search_catalog datacatalog
    (Scope.append_project_id project_id Scope.empty) query "relevance" 1000
    (world s) = (Raise e, w) ->
  let s' := set_world w
              (add_call (SearchCatalog
                           {| Scope.include_org_ids := [];
                              Scope.include_project_ids := [project_id];
                              Scope.include_gcp_public_datasets := false |}
                           query "relevance" 1000) s) in
  search_catalog datacatalog project_id query s = (Raise e, s')
  /\ search_catalog_relative_resource_name datacatalog project_id query s
     = (Raise e, s').
Proof.
  intros Hsearch s'.
  unfold search_catalog_relative_resource_name, search_catalog,
    mbind, M_bind, bind.
  rewrite (client_call_eq _ _ _ _ _ Hsearch). split; reflexivity.
Qed.

End TagPasses.

(** ** Scenarios for the further properties *)

Definition entry_changed : Mock.script :=
  Mock.entries (Return (Mock.persisted_entry "A"))
               (Return (Mock.persisted_entry "B"))
               (Raise Mock.unavailable).

Definition update_denied : Mock.script :=
  Mock.entries (Return (Mock.persisted_entry "A"))
               (Raise permission_denied)
               (Return (Mock.persisted_entry "B")).

Definition update_unavailable : Mock.script :=
  Mock.entries (Return (Mock.persisted_entry "A"))
               (Raise Mock.unavailable)
               (Raise Mock.unavailable).

Definition create_refused : Mock.script :=
  Mock.entries (Raise permission_denied)
               (Raise Mock.unavailable)
               (Raise failed_precondition).

Definition entry_created : Mock.script :=
  Mock.entries (Raise permission_denied)
               (Raise Mock.unavailable)
               (Return (Mock.persisted_entry "A")).

Definition entry_deleted : Mock.script :=
  {| Mock.on_create_entry := Raise Mock.unavailable;
     Mock.on_get_entry := Raise Mock.unavailable;
     Mock.on_update_entry := Raise Mock.unavailable;
     Mock.on_delete_entry := Return tt;
     Mock.on_list_tags := Raise Mock.unavailable;
     Mock.on_create_tag := Raise Mock.unavailable;
     Mock.on_update_tag := Raise Mock.unavailable;
     Mock.on_search_catalog := Raise Mock.unavailable |}.

(** The entry carries [persisted_tags]; every create of a tag is refused. *)
Definition tags_create_refused (persisted_tags : list Tag.t) : Mock.script :=
  {| Mock.on_create_entry := Raise Mock.unavailable;
     Mock.on_get_entry := Raise Mock.unavailable;
     Mock.on_update_entry := Raise Mock.unavailable;
     Mock.on_delete_entry := Raise Mock.unavailable;
     Mock.on_list_tags := Return persisted_tags;
     Mock.on_create_tag := Raise failed_precondition;
     Mock.on_update_tag := Raise Mock.unavailable;
     Mock.on_search_catalog := Raise Mock.unavailable |}.

(** A persisted tag with the field of [sample_tag] and one more. *)
Definition sample_tag_wider : Tag.t :=
  Mock.tag "entries/t/tags/3" "tpl"
    [("owner", Mock.string_field "x"); ("team", Mock.string_field "data")].

(** A tag of another template. *)
Definition sample_tag_foreign : Tag.t :=
  Mock.tag "entries/t/tags/4" "other" [("owner", Mock.string_field "x")].

Lemma upsert_entry_updates_when_changed_witness :
  let r := upsert_entry (Mock.client entry_changed) "g" "t" (Mock.entry "B")
             (Mock.initial []) in
  r.1 = Return (Mock.persisted_entry "B")
  /\ calls r.2 = [GetEntry "g/entries/t"; UpdateEntry (Mock.entry "B") None].
Proof.
  destruct (upsert_entry_updates_when_changed (Mock.client entry_changed)
              "g" "t" (Mock.entry "B") (Mock.persisted_entry "A")
              (Mock.persisted_entry "B") (Mock.initial []) tt tt
              eq_refl eq_refl eq_refl) as (Hret & Hcalls & _).
  split; [exact Hret | exact Hcalls].
Defined.

Lemma upsert_entry_update_denied_creates_witness :
  calls (upsert_entry (Mock.client update_denied) "g" "t" (Mock.entry "B")
           (Mock.initial [])).2
  = [GetEntry "g/entries/t"; UpdateEntry (Mock.entry "B") None;
     CreateEntry "g" "t" (Mock.entry "B")].
Proof.
  exact (proj2 (upsert_entry_update_denied_creates (Mock.client update_denied)
                  "g" "t" (Mock.entry "B") (Mock.persisted_entry "A")
                  (Mock.initial []) permission_denied tt tt
                  eq_refl eq_refl eq_refl eq_refl)).
Defined.

Lemma upsert_entry_propagates_other_failures_witness :
  (upsert_entry (Mock.client Mock.failing) "g" "t" (Mock.entry "B")
     (Mock.initial [])).1 = Raise Mock.unavailable
  /\ (upsert_entry (Mock.client update_unavailable) "g" "t" (Mock.entry "B")
        (Mock.initial [])).1 = Raise Mock.unavailable.
Proof.
  assert (H1 : exception_class Mock.unavailable <> PermissionDenied)
    by discriminate.
  assert (H2 : exception_class Mock.unavailable <> FailedPrecondition)
    by discriminate.
  split.
  - exact (f_equal fst
             (proj1 (upsert_entry_propagates_other_failures
                       (Mock.client Mock.failing) "g" "t" (Mock.entry "B")
                       (Mock.initial []) Mock.unavailable H1 H2)
                    tt eq_refl)).
  - exact (f_equal fst
             (proj2 (upsert_entry_propagates_other_failures
                       (Mock.client update_unavailable) "g" "t"
                       (Mock.entry "B") (Mock.initial []) Mock.unavailable
                       H1 H2)
                    (Mock.persisted_entry "A") tt tt
                    eq_refl eq_refl eq_refl)).
Defined.

Lemma upsert_entry_create_failure_propagates_witness :
  let r := upsert_entry (Mock.client create_refused) "g" "t" (Mock.entry "A")
             (Mock.initial []) in
  r.1 = Raise failed_precondition
  /\ calls r.2 = [GetEntry "g/entries/t"; CreateEntry "g" "t" (Mock.entry "A")]
  /\ world r.2 = tt.
Proof.
  refine (upsert_entry_create_failure_propagates (Mock.client create_refused)
            "g" "t" (Mock.entry "A") (Mock.initial [])
            permission_denied failed_precondition tt tt
            eq_refl eq_refl eq_refl _).
  discriminate.
Defined.

Lemma permission_denied_never_propagates_witness :
  exception_class Mock.unavailable <> PermissionDenied.
Proof.
  exact (proj2 (permission_denied_never_propagates (Mock.client Mock.failing)
                  "g" "t" (Mock.entry "A") (Mock.initial []) Mock.unavailable)
               eq_refl).
Defined.

Lemma upsert_entry_update_iff_changed_witness :
  In (UpdateEntry (Mock.entry "B") None)
     (calls (upsert_entry (Mock.client entry_changed) "g" "t" (Mock.entry "B")
               (Mock.initial [])).2).
Proof.
  exact (proj2 (proj1 (upsert_entry_update_iff_changed
                         (Mock.client entry_changed) "g" "t" (Mock.entry "B")
                         (Mock.persisted_entry "A") (Mock.initial []) tt
                         eq_refl))
               eq_refl).
Defined.

Lemma create_entry_request_witness :
  (create_entry (Mock.client entry_created) "g" "t" (Mock.entry "A")
     (Mock.initial [])).1 = Return (Mock.persisted_entry "A").
Proof.
  exact (f_equal fst
           (proj2 (create_entry_request (Mock.client entry_created)
                     "g" "t" (Mock.entry "A") (Mock.initial []))
                  (Mock.persisted_entry "A") tt eq_refl)).
Defined.

Lemma delete_entry_request_witness :
  log (delete_entry (Mock.client entry_deleted) "g/entries/t"
         (Mock.initial [])).2
  = [{| level := INFO; message := "Entry deleted: g/entries/t" |}].
Proof.
  exact (f_equal (fun r => log r.2)
           (proj2 (delete_entry_request (Mock.client entry_deleted)
                     "g/entries/t" (Mock.initial []))
                  tt eq_refl)).
Defined.

Lemma entry_was_updated_irreflexive_witness :
  entry_was_updated (Mock.persisted_entry "A") (Mock.entry "A") = false.
Proof.
  exact (entry_was_updated_irreflexive (Mock.persisted_entry "A")
           (Mock.entry "A") eq_refl eq_refl).
Defined.

Lemma sample_tag_no_nan (field_id : string) (field : TagField.t) :
  Tag.fields sample_tag !! field_id = Some field ->
  PrimFloat.eqb (TagField.double_value field) (TagField.double_value field)
  = true.
Proof.
  unfold sample_tag, Mock.tag. cbn [Tag.fields list_to_map foldr].
  intros [[_ <-]|[_ H]]%lookup_insert_Some; [reflexivity|].
  rewrite lookup_empty in H. discriminate.
Defined.

Lemma tags_fields_are_equal_submap_witness :
  tags_fields_are_equal sample_tag sample_tag_wider = true.
Proof.
  apply (tags_fields_are_equal_submap sample_tag sample_tag_wider).
  - unfold sample_tag, sample_tag_wider, Mock.tag.
    cbn [Tag.fields list_to_map foldr fst snd].
    apply insert_mono, map_empty_subseteq.
  - exact sample_tag_no_nan.
Defined.

Lemma tags_fields_are_equal_no_fields_witness :
  tags_fields_are_equal (Mock.tag "" "tpl" []) sample_tag = true.
Proof.
  exact (proj2 (tags_fields_are_equal_no_fields (Mock.tag "" "tpl" [])
                  sample_tag) eq_refl).
Defined.

(** The same object twice in the input, no persisted tag of its template:
    two create requests. *)
Lemma upsert_tags_trace_witness :
  calls (upsert_tags (Mock.client (Mock.tags [sample_tag_foreign]))
           (Mock.persisted_entry "A") [0%nat; 0%nat]
           (Mock.initial [sample_tag])).2
  = [ListTags (Entry.name (Mock.persisted_entry "A"));
     CreateTag (Entry.name (Mock.persisted_entry "A")) sample_tag;
     CreateTag (Entry.name (Mock.persisted_entry "A")) sample_tag].
Proof.
  refine (eq_trans
            (upsert_tags_trace (Mock.client (Mock.tags [sample_tag_foreign]))
               (Mock.persisted_entry "A") [sample_tag_foreign]
               0%nat [0%nat] (Mock.initial [sample_tag]) tt eq_refl _) _).
  - vm_compute. reflexivity.
  - vm_compute. reflexivity.
Defined.

Lemma upsert_tags_frame_witness :
  tag_objects
    (upsert_tags (Mock.client (Mock.tags [sample_tag_equal]))
       (Mock.persisted_entry "A") [0%nat]
       (Mock.initial [sample_tag; sample_tag_foreign])).2 1%nat
  = sample_tag_foreign.
Proof.
  refine (proj2 (proj2 (proj2
            (upsert_tags_frame (Mock.client (Mock.tags [sample_tag_equal]))
               (Mock.persisted_entry "A") [0%nat]
               (Mock.initial [sample_tag; sample_tag_foreign]) 1%nat))) _).
  intros [H|[]]. discriminate.
Defined.

Lemma upsert_tags_list_failure_witness :
  upsert_tags (Mock.client Mock.failing) (Mock.persisted_entry "A")
    [0%nat; 1%nat] (Mock.initial [sample_tag])
  = (Raise Mock.unavailable,
     set_world tt
       (add_call (ListTags (Entry.name (Mock.persisted_entry "A")))
          (Mock.initial [sample_tag]))).
Proof.
  exact (upsert_tags_list_failure (Mock.client Mock.failing)
           (Mock.persisted_entry "A") 0%nat [1%nat]
           (Mock.initial [sample_tag]) Mock.unavailable tt eq_refl).
Defined.

Lemma sample_tag_foreign_template (p : Tag.t) :
  In p [sample_tag_foreign] -> Tag.template p <> Tag.template sample_tag.
Proof. intros [<-|[]]. discriminate. Defined.

Lemma upsert_tags_body_creates_witness :
  calls (upsert_tags_body (Mock.client (Mock.tags [sample_tag_foreign]))
           (Mock.persisted_entry "A") [sample_tag_foreign] 0%nat
           (Mock.initial [sample_tag])).2
  = [CreateTag (Entry.name (Mock.persisted_entry "A")) sample_tag].
Proof.
  exact (proj1 (upsert_tags_body_creates
                  (Mock.client (Mock.tags [sample_tag_foreign]))
                  (Mock.persisted_entry "A") [sample_tag_foreign] 0%nat
                  (Mock.initial [sample_tag]) sample_tag_foreign_template)).
Defined.

Lemma upsert_tags_body_updates_witness :
  calls (upsert_tags_body
           (Mock.client (Mock.tags [sample_tag_other; sample_tag_equal]))
           (Mock.persisted_entry "A") [sample_tag_other; sample_tag_equal]
           0%nat (Mock.initial [sample_tag])).2
  = [UpdateTag {| Tag.name := "entries/t/tags/1"; Tag.template := "tpl";
                  Tag.fields := Tag.fields sample_tag; Tag.column := "" |}
               None].
Proof.
  refine (upsert_tags_body_updates
            (Mock.client (Mock.tags [sample_tag_other; sample_tag_equal]))
            (Mock.persisted_entry "A") [sample_tag_other; sample_tag_equal]
            0%nat (Mock.initial [sample_tag]) sample_tag_equal _ _).
  - vm_compute. reflexivity.
  - exists sample_tag_other. split; [left; reflexivity|].
    split; [reflexivity|]. vm_compute. reflexivity.
Defined.

Lemma upsert_tags_stops_at_failed_create_witness :
  let r := upsert_tags (Mock.client (tags_create_refused [sample_tag_foreign]))
             (Mock.persisted_entry "A") [0%nat; 1%nat]
             (Mock.initial [sample_tag; sample_tag]) in
  r.1 = Raise failed_precondition
  /\ calls r.2
     = [ListTags (Entry.name (Mock.persisted_entry "A"));
        CreateTag (Entry.name (Mock.persisted_entry "A")) sample_tag]
  /\ world r.2 = tt
  /\ tag_objects r.2 = tag_objects (Mock.initial [sample_tag; sample_tag]).
Proof.
  exact (upsert_tags_stops_at_failed_create
           (Mock.client (tags_create_refused [sample_tag_foreign]))
           (Mock.persisted_entry "A") [sample_tag_foreign] 0%nat [1%nat]
           (Mock.initial [sample_tag; sample_tag]) failed_precondition tt tt
           eq_refl sample_tag_foreign_template eq_refl).
Defined.

Lemma search_catalog_failure_witness :
  (search_catalog_relative_resource_name (Mock.client Mock.failing)
     "my-project" "system=hive" (Mock.initial [])).1
  = Raise Mock.unavailable.
Proof.
  exact (f_equal fst
           (proj2 (search_catalog_failure (Mock.client Mock.failing)
                     "my-project" "system=hive" (Mock.initial [])
                     Mock.unavailable tt eq_refl))).
Defined.
